(** * A shallow embedding of the tiny WebSocket server (src/server.js)

    The development follows the source file top to bottom:
    [OP_CODES], [KEY_SUFFIX], [hashWebSocketKey], [unmask],
    [encodeMessage] and the [WebSocketConnection] class with its
    constructor, its socket [close] handler and [send].

    Numbers are integers in [Z]; a [Buffer] is a heap object holding a list
    of bytes (integers in [0, 256)); JavaScript exceptions are explicit
    results; the socket and the event emitter are logs in the connection
    state. *)

From Stdlib Require Import ZArith Lia.
From stdpp Require Import gmap list strings.

Local Open Scope Z_scope.

(** ** Exceptions and results *)

(** The exceptions the embedded code can raise.

    Node's [Buffer] write methods check their value and their offset
    ([checkInt] in lib/buffer.js; the source never passes [noAssert], which
    skipped the check in the releases that had it): [ValueOutOfBounds] is
    the failure on a value outside the range of the written type (a
    TypeError "value argument is out of bounds" up to Node 9, a RangeError
    ERR_OUT_OF_RANGE from Node 10 on), [IndexOutOfRange] the failure on an
    offset beyond the Buffer.  [JsError msg] is [new Error(msg)].

    [NotABuffer] and [LoopFuel] belong to the embedding: a Buffer method
    called on a location the heap does not hold, and a loop that ran out
    of the steps it was given.  [ClosedConnection] is the failure of the
    modelled [_doSend] below. *)
Inductive exn : Type :=
  | ValueOutOfBounds
  | IndexOutOfRange
  | NotABuffer
  | LoopFuel
  | JsError (msg : string)
  | ClosedConnection.

Inductive result (A : Type) : Type :=
  | Ok (a : A)
  | Throw (e : exn).
Arguments Ok {A} a.
Arguments Throw {A} e.

(** ** JavaScript integer operators *)

(** [ToInt32] of an integral number, and of [undefined] (here [None]),
    which converts to [0]. *)
Definition ToInt32 (z : Z) : Z := (z + 2^31) mod 2^32 - 2^31.

Definition ToInt32_opt (v : option Z) : Z :=
  match v with Some z => ToInt32 z | None => 0 end.

(** [a ^ b] and [a | b] *)
Definition js_xor (a b : option Z) : Z := Z.lxor (ToInt32_opt a) (ToInt32_opt b).
Definition js_or (a b : Z) : Z := Z.lor (ToInt32 a) (ToInt32 b).

Definition is_byte (z : Z) : Prop := 0 <= z < 256.
Definition bytes (l : list Z) : Prop := Forall is_byte l.

(** Every Buffer of a heap holds bytes. *)
Definition heap_ok (h : gmap positive (list Z)) : Prop :=
  ∀ l bs, h !! l = Some bs → bytes bs.

(** ** The heap of Buffers *)

Abbreviation loc := positive.
Abbreviation heap := (gmap positive (list Z)).

(** A computation over a state [S] reads and updates the state and returns
    or throws; what it did to the state before throwing stays done. *)
Definition ST (S A : Type) : Type := S → result A * S.

Global Instance ST_ret {S} : MRet (ST S) := λ A a s, (Ok a, s).
Global Instance ST_bind {S} : MBind (ST S) := λ A B k m s,
  match m s with
  | (Ok a, s') => k a s'
  | (Throw e, s') => (Throw e, s')
  end.
Definition throw {S A} (e : exn) : ST S A := λ s, (Throw e, s).
Definition gets {S A} (f : S → A) : ST S A := λ s, (Ok (f s), s).
Definition modify {S} (f : S → S) : ST S unit := λ s, (Ok tt, f s).

(** Computations over the heap of Buffers. *)
Abbreviation M := (ST (gmap positive (list Z))).

(** [for (let i = i0; cond(i); ++i) body(i)], bounded by [fuel] tests of
    the condition. *)
Fixpoint for_loop {S} (fuel : nat) (cond : Z → ST S bool) (body : Z → ST S unit)
    (i : Z) : ST S unit :=
  match fuel with
  | O => throw LoopFuel
  | S fuel' =>
      c ← cond i;
      if c : bool then body i;; for_loop fuel' cond body (i + 1)
      else mret tt
  end.

(** ** [OP_CODES] (server.js, lines 12-18) *)
Definition OP_TEXT : Z := 1.
Definition OP_BINARY : Z := 2.
Definition OP_CLOSE : Z := 8.
Definition OP_PING : Z := 9.
Definition OP_PONG : Z := 10.

Definition OP_CODES : list Z := [OP_TEXT; OP_BINARY; OP_CLOSE; OP_PING; OP_PONG].

(** ** Node's [Buffer] *)

Section Buffers.

(** What the allocator's memory held before: [new Buffer(n)] does not
    clear it (releases of Node before 8 hand out stale memory, later
    ones zeros).  Byte [i] of a new Buffer is [junk i mod 256]. *)
Variable junk : nat → Z.

Definition stale (n : nat) : list Z := (λ i, junk i mod 256) <$> seq 0 n.

(** [new Buffer(size)] *)
Definition new_Buffer (size : Z) : M loc := λ h,
  let l := fresh (dom h) in
  (Ok l, <[l := stale (Z.to_nat size)]> h).

(** [buf.length] *)
Definition Buffer_length (buf : loc) : M Z := λ h,
  match h !! buf with
  | Some bs => (Ok (Z.of_nat (length bs)), h)
  | None => (Throw NotABuffer, h)
  end.

(** [buf[i]]: [undefined] out of range *)
Definition Buffer_get (buf : loc) (i : Z) : M (option Z) := λ h,
  match h !! buf with
  | Some bs => (Ok (if 0 <=? i then bs !! Z.to_nat i else None), h)
  | None => (Throw NotABuffer, h)
  end.

(** [buf[i] = v]: the value is stored modulo 256, and a store out of
    range does nothing. *)
Definition store (i : Z) (v : Z) (bs : list Z) : list Z :=
  if 0 <=? i then <[Z.to_nat i := v mod 256]> bs else bs.

Definition Buffer_set (buf : loc) (i : Z) (v : Z) : M unit := λ h,
  match h !! buf with
  | Some bs => (Ok tt, <[buf := store i v bs]> h)
  | None => (Throw NotABuffer, h)
  end.

(** Node's [checkInt(buffer, value, offset, ext, max, min)] *)
Definition checkInt (buf : loc) (value offset ext max min : Z) : M unit :=
  len ← Buffer_length buf;
  if (max <? value) || (value <? min) then throw ValueOutOfBounds
  else if len <? offset + ext then throw IndexOutOfRange
  else mret tt.

(** [buf.writeUInt8(value, offset)] *)
Definition writeUInt8 (buf : loc) (value offset : Z) : M Z :=
  checkInt buf value offset 1 255 0;;
  Buffer_set buf offset value;;
  mret (offset + 1).

(** [buf.writeUInt16BE(value, offset)] *)
Definition writeUInt16BE (buf : loc) (value offset : Z) : M Z :=
  checkInt buf value offset 2 65535 0;;
  Buffer_set buf offset (Z.shiftr value 8);;
  Buffer_set buf (offset + 1) value;;
  mret (offset + 2).

(** [source.copy(target, targetStart)]: the bytes of [source] that fit
    are moved into [target] from [targetStart] on; the number of bytes
    copied is returned. *)
Definition blit (src : list Z) (start : nat) (dst : list Z) : list Z :=
  let n := Nat.min (length src) (length dst - start) in
  take start dst ++ take n src ++ drop (start + n) dst.

Definition Buffer_copy (source target : loc) (targetStart : Z) : M Z := λ h,
  match h !! source, h !! target with
  | Some src, Some dst =>
      if (Z.of_nat (length dst) <=? targetStart) || (Z.of_nat (length src) <=? 0)
      then (Ok 0, h)
      else
        let start := Z.to_nat targetStart in
        (Ok (Z.of_nat (Nat.min (length src) (length dst - start))),
         <[target := blit src start dst]> h)
  | _, _ => (Throw NotABuffer, h)
  end.

(** ** [unmask] (server.js, lines 29-35) *)
Definition unmask (maskBytes data : loc) : M loc :=
  n ← Buffer_length data;
  payload ← new_Buffer n;
  for_loop (S (Z.to_nat n))
    (λ i, len ← Buffer_length data; mret (i <? len))
    (λ i, m ← Buffer_get maskBytes (i `mod` 4);
          d ← Buffer_get data i;
          Buffer_set payload i (js_xor m d))
    0;;
  mret payload.

(** ** [encodeMessage] (server.js, lines 42-84) *)
Definition encodeMessage (opcode : Z) (payload : loc) : M loc :=
  let b1 := js_or 128 opcode in
  let b2 := 0 in
  length ← Buffer_length payload;
  if length <? 126 then
    plen ← Buffer_length payload;
    buf ← new_Buffer (plen + 2 + 0);
    let b2 := js_or b2 length in
    writeUInt8 buf b1 0;;
    writeUInt8 buf b2 1;;
    Buffer_copy payload buf 2;;
    mret buf
  else if length <? Z.shiftl 1 16 then
    plen ← Buffer_length payload;
    buf ← new_Buffer (plen + 2 + 2);
    let b2 := js_or b2 126 in
    writeUInt8 buf b1 0;;
    writeUInt8 buf b2 1;;
    writeUInt16BE buf length 2;;
    Buffer_copy payload buf 4;;
    mret buf
  else
    plen ← Buffer_length payload;
    buf ← new_Buffer (plen + 2 + 8);
    let b2 := js_or b2 127 in
    writeUInt8 buf b1 0;;
    writeUInt8 buf b2 1;;
    writeUInt8 buf 0 2;;
    writeUInt8 buf length 6;;
    Buffer_copy payload buf 10;;
    mret buf.

End Buffers.

(** ** Strings *)

(** A JavaScript string is its sequence of UTF-16 code units. *)
Abbreviation jsstring := (list Z).

Fixpoint str (s : string) : jsstring :=
  match s with
  | EmptyString => []
  | String c s' => Z.of_N (Ascii.N_of_ascii c) :: str s'
  end.

Definition CR : Z := 13.
Definition LF : Z := 10.

(** Encoding a string with Node's ['ascii'] encoding keeps the low byte of
    every code unit. *)
Definition ascii_encode (s : jsstring) : list Z := (λ c, Z.land c 255) <$> s.

(** Encoding a string as UTF-8, as [new Buffer(s, 'utf8')] and
    [socket.write(s)] do: a surrogate pair is one code point of four
    bytes, a surrogate on its own becomes U+FFFD. *)
Definition utf8_cp (cp : Z) : list Z :=
  if cp <? 128 then [cp]
  else if cp <? 2048 then
    [Z.lor 192 (Z.shiftr cp 6); Z.lor 128 (Z.land cp 63)]
  else if cp <? 65536 then
    [Z.lor 224 (Z.shiftr cp 12); Z.lor 128 (Z.land (Z.shiftr cp 6) 63);
     Z.lor 128 (Z.land cp 63)]
  else
    [Z.lor 240 (Z.shiftr cp 18); Z.lor 128 (Z.land (Z.shiftr cp 12) 63);
     Z.lor 128 (Z.land (Z.shiftr cp 6) 63); Z.lor 128 (Z.land cp 63)].

Definition is_high_surrogate (c : Z) : bool := (55296 <=? c) && (c <? 56320).
Definition is_low_surrogate (c : Z) : bool := (56320 <=? c) && (c <? 57344).

Fixpoint utf8_encode (s : jsstring) : list Z :=
  match s with
  | [] => []
  | c :: rest =>
      if is_high_surrogate c then
        match rest with
        | d :: rest' =>
            if is_low_surrogate d
            then utf8_cp (65536 + Z.shiftl (c - 55296) 10 + (d - 56320))
                   ++ utf8_encode rest'
            else utf8_cp 65533 ++ utf8_encode rest
        | [] => utf8_cp 65533
        end
      else if is_low_surrogate c then utf8_cp 65533 ++ utf8_encode rest
      else utf8_cp c ++ utf8_encode rest
  end.

(** ** SHA-1 and base64, the two primitives of Node's [crypto] that
    [hashWebSocketKey] calls (FIPS 180-4 and RFC 4648) *)
Module SHA1.

Definition w32 (z : Z) : Z := z mod 2^32.
Definition rotl (n x : Z) : Z :=
  w32 (Z.lor (Z.shiftl x n) (Z.shiftr x (32 - n))).

(** the [n] low bytes of [z], most significant first *)
Fixpoint be_bytes (n : nat) (z : Z) : list Z :=
  match n with
  | O => []
  | S n' => Z.land (Z.shiftr z (8 * Z.of_nat n')) 255 :: be_bytes n' z
  end.

Definition pad (msg : list Z) : list Z :=
  let l := Z.of_nat (length msg) in
  msg ++ [128] ++ replicate (Z.to_nat ((55 - l) mod 64)) 0 ++ be_bytes 8 (8 * l).

Fixpoint words (n : nat) (bs : list Z) : list Z :=
  match n, bs with
  | S n', a :: b :: c :: d :: bs' =>
      (Z.shiftl a 24 + Z.shiftl b 16 + Z.shiftl c 8 + d) :: words n' bs'
  | _, _ => []
  end.

(** The message schedule, most recent word first. *)
Fixpoint schedule (n : nat) (w : list Z) : list Z :=
  match n with
  | O => w
  | S n' =>
      let x := Z.lxor (Z.lxor (nth 2 w 0) (nth 7 w 0))
                      (Z.lxor (nth 13 w 0) (nth 15 w 0)) in
      schedule n' (rotl 1 x :: w)
  end.

Definition f (t : nat) (b c d : Z) : Z :=
  if (t <? 20)%nat then Z.lor (Z.land b c) (Z.land (Z.lxor b 4294967295) d)
  else if (t <? 40)%nat then Z.lxor (Z.lxor b c) d
  else if (t <? 60)%nat then
    Z.lor (Z.lor (Z.land b c) (Z.land b d)) (Z.land c d)
  else Z.lxor (Z.lxor b c) d.

Definition K (t : nat) : Z :=
  if (t <? 20)%nat then 1518500249
  else if (t <? 40)%nat then 1859775393
  else if (t <? 60)%nat then 2400959708
  else 3395469782.

Definition state : Type := Z * Z * Z * Z * Z.

Fixpoint rounds (t : nat) (ws : list Z) (s : state) : state :=
  match ws with
  | [] => s
  | w :: ws' =>
      let '(a, b, c, d, e) := s in
      let temp := w32 (rotl 5 a + f t b c d + e + K t + w) in
      rounds (S t) ws' (temp, a, rotl 30 b, c, d)
  end.

Definition block (s : state) (bs : list Z) : state :=
  let ws := rev (schedule 64 (rev (words 16 bs))) in
  let '(h0, h1, h2, h3, h4) := s in
  let '(a, b, c, d, e) := rounds 0 ws s in
  (w32 (h0 + a), w32 (h1 + b), w32 (h2 + c), w32 (h3 + d), w32 (h4 + e)).

Fixpoint blocks (n : nat) (s : state) (bs : list Z) : state :=
  match n with
  | O => s
  | S n' => blocks n' (block s (take 64 bs)) (drop 64 bs)
  end.

Definition init : state :=
  (1732584193, 4023233417, 2562383102, 271733878, 3285377520).

Definition digest (msg : list Z) : list Z :=
  let p := pad msg in
  let '(h0, h1, h2, h3, h4) := blocks (length p / 64) init p in
  be_bytes 4 h0 ++ be_bytes 4 h1 ++ be_bytes 4 h2 ++ be_bytes 4 h3 ++ be_bytes 4 h4.

End SHA1.

Module Base64.

Definition alphabet : jsstring :=
  str "ABCDEFGHIJKLMNOPQRSTUVWXYZabcdefghijklmnopqrstuvwxyz0123456789+/".

Definition digit (n : Z) : Z := nth (Z.to_nat n) alphabet 0.
Definition pad_char : Z := 61.

Fixpoint encode (bs : list Z) : jsstring :=
  match bs with
  | [] => []
  | [a] =>
      [digit (Z.shiftr a 2); digit (Z.shiftl (Z.land a 3) 4); pad_char; pad_char]
  | [a; b] =>
      [digit (Z.shiftr a 2);
       digit (Z.lor (Z.shiftl (Z.land a 3) 4) (Z.shiftr b 4));
       digit (Z.shiftl (Z.land b 15) 2); pad_char]
  | a :: b :: c :: bs' =>
      digit (Z.shiftr a 2)
      :: digit (Z.lor (Z.shiftl (Z.land a 3) 4) (Z.shiftr b 4))
      :: digit (Z.lor (Z.shiftl (Z.land b 15) 2) (Z.shiftr c 6))
      :: digit (Z.land c 63)
      :: encode bs'
  end.

End Base64.

(** What [unmask] computes, on the bytes ([unmask_spec] below): byte [i]
    of the data is combined with byte [i mod 4] of the key. *)
Definition xor_mask (key data : list Z) : list Z :=
  imap (λ i d, js_xor (key !! (i mod 4)%nat) (Some d) mod 256) data.

(** ** [KEY_SUFFIX] and [hashWebSocketKey] (server.js, lines 21-27) *)
Definition KEY_SUFFIX : jsstring := str "258EAFA5-E914-47DA-95CA-C5ABODC85B11".

Definition hashWebSocketKey (key : jsstring) : jsstring :=
  Base64.encode (SHA1.digest (ascii_encode (key ++ KEY_SUFFIX))).

(** ** The connection (server.js, lines 86-138) *)

(** The values a caller can pass to [send]. *)
Inductive JSValue : Type :=
  | VUndefined
  | VNull
  | VBool (b : bool)
  | VNumber (z : Z)
  | VString (s : jsstring)
  | VBuffer (b : loc)
  | VObject.

Inductive Event : Type :=
  | EvClose (code : Z)
  | EvData (opcode : Z) (payload : loc).

(** The state a connection runs in: the heap of Buffers, the bytes written
    to its socket so far, the events it has emitted so far (oldest first),
    and its fields [this.buffer] and [this.closed], which are [undefined]
    ([None]) until the constructor assigns them. *)
Record World : Type := mkWorld {
  w_heap : heap;
  w_socket : list Z;
  w_emitted : list Event;
  this_buffer : option loc;
  this_closed : option bool
}.

Definition blank (h : heap) : World :=
  {| w_heap := h; w_socket := []; w_emitted := [];
     this_buffer := None; this_closed := None |}.

Definition set_heap (h : heap) (w : World) : World :=
  {| w_heap := h; w_socket := w_socket w; w_emitted := w_emitted w;
     this_buffer := this_buffer w; this_closed := this_closed w |}.
Definition set_socket (o : list Z) (w : World) : World :=
  {| w_heap := w_heap w; w_socket := o; w_emitted := w_emitted w;
     this_buffer := this_buffer w; this_closed := this_closed w |}.
Definition set_emitted (e : list Event) (w : World) : World :=
  {| w_heap := w_heap w; w_socket := w_socket w; w_emitted := e;
     this_buffer := this_buffer w; this_closed := this_closed w |}.
Definition set_buffer (b : option loc) (w : World) : World :=
  {| w_heap := w_heap w; w_socket := w_socket w; w_emitted := w_emitted w;
     this_buffer := b; this_closed := this_closed w |}.
Definition set_closed (c : option bool) (w : World) : World :=
  {| w_heap := w_heap w; w_socket := w_socket w; w_emitted := w_emitted w;
     this_buffer := this_buffer w; this_closed := c |}.

(** Running a heap computation inside the connection's state. *)
Definition lift {A} (m : M A) : ST World A := λ w,
  let '(r, h) := m (w_heap w) in (r, set_heap h w).

(** [!v] for a field that holds [undefined] or a boolean *)
Definition js_not (v : option bool) : bool :=
  match v with Some true => false | _ => true end.

(** [socket.write(string)] sends the string's UTF-8 bytes,
    [socket.write(buffer)] the Buffer's bytes.  [this.emit(...)] hands the
    event to the listeners, which belong to the application: they are not
    part of this state, and the log records what they were handed. *)
Definition socket_write_string (s : jsstring) : ST World unit :=
  modify (λ w, set_socket (w_socket w ++ utf8_encode s) w).

Definition socket_write (buf : loc) : ST World unit := λ w,
  match w_heap w !! buf with
  | Some bs => (Ok tt, set_socket (w_socket w ++ bs) w)
  | None => (Throw NotABuffer, w)
  end.

Definition emit (e : Event) : ST World unit :=
  modify (λ w, set_emitted (w_emitted w ++ [e]) w).

(** [key + KEY_SUFFIX] converts a missing header ([undefined]) to the
    string "undefined". *)
Definition ToString (v : option jsstring) : jsstring :=
  match v with Some s => s | None => str "undefined" end.

(** The template literal of lines 93-97: [\r] is an escape, the line ends
    inside the literal are line feeds, and the indentation of its
    continuation lines belongs to the string. *)
Definition handshake_response (key : jsstring) : jsstring :=
  str "HTTP/1.1 101 Web Socket Protocol Handshake " ++ [CR] ++ [LF] ++
  str "      Upgrade: WebSocket " ++ [CR] ++ [LF] ++
  str "      Connection: Upgrade " ++ [CR] ++ [LF] ++
  str "      sec-websocket-accept: " ++ key ++ [LF] ++
  str "      " ++ [CR; LF; CR; LF].

(** The socket's ['close'] handler (lines 105-110). *)
Definition on_close (had_error : bool) : ST World unit :=
  c ← gets this_closed;
  if js_not c then
    emit (EvClose 1006);;
    modify (set_closed (Some true))
  else mret tt.

Section Connection.

Variable junk : nat → Z.

(** [new Buffer(string, 'utf8')] *)
Definition new_Buffer_utf8 (s : jsstring) : M loc := λ h,
  let l := fresh (dom h) in (Ok l, <[l := utf8_encode s]> h).

(** The constructor (lines 87-115), given the request's
    [sec-websocket-key] header.  Registering the two socket handlers
    changes nothing in this state; the ['close'] handler is [on_close]
    above, and the ['data'] handler, which runs [this._processBuffer], a
    method server.js does not define, is left out. *)
Definition constructor (sec_websocket_key : option jsstring) : ST World unit :=
  let key := hashWebSocketKey (ToString sec_websocket_key) in
  socket_write_string (handshake_response key);;
  buffer ← lift (new_Buffer junk 0);
  modify (set_buffer (Some buffer));;
  modify (set_closed (Some false)).

(** [this._doSend], which [send] calls and the source file does not
    define. *)
Variable doSend : Z → loc → ST World unit.

(** [send] (lines 122-138) *)
Definition send (obj : JSValue) : ST World unit :=
  '(opcode, payload) ←
    match obj with
    | VBuffer b => mret (OP_BINARY, b)
    | VString s =>
        payload ← lift (new_Buffer_utf8 s);
        mret (OP_TEXT, payload)
    | _ => throw (JsError "Cannot send object. Must be string or Buffer")
    end;
  doSend opcode payload.

End Connection.

(** ** The parts of the repository that server.js calls or the
    specification describes, and that server.js does not contain *)

(** Modelled from the spec: [_doSend], the method [send] hands its opcode
    and payload to, is missing from server.js.  The specification (4.2):
    the opcode and payload are passed to the encoder and the resulting
    bytes written to the socket; no attempt is made to send if the
    connection is CLOSED, which fails distinctly. *)
Definition _doSend (junk : nat → Z) (opcode : Z) (payload : loc) : ST World unit :=
  c ← gets this_closed;
  if js_not c then
    frame ← lift (encodeMessage junk opcode payload);
    socket_write frame
  else throw ClosedConnection.

(** The decoded frame of the specification (3). *)
Record Frame : Type := mkFrame {
  fin : bool;
  opcode : Z;
  payload : list Z
}.

Inductive decoded : Type :=
  | Incomplete
  | ProtocolError
  | Decoded (f : Frame) (consumed : nat).

Definition be_value (bs : list Z) : Z := fold_left (λ acc b, acc * 256 + b) bs 0.

Definition known_opcode (op : Z) : bool := bool_decide (op ∈ OP_CODES).

(** Modelled from the spec: the decoder, [tryDecodeFrame] in the
    specification (4.1), is missing from server.js ([_processBuffer] is
    called there and not defined).  Byte 0 holds fin and the opcode,
    byte 1 the mask flag and the length field; a length field of 126 or
    127 is followed by 2 or 8 bytes of length, most significant first; a
    masked frame carries 4 bytes of key before its payload, which is
    unmasked as [unmask] does; too few bytes give [Incomplete], an
    unknown opcode a protocol error. *)
Definition tryDecodeFrame (buffer : list Z) : decoded :=
  match buffer with
  | b0 :: b1 :: rest =>
      let lenfield := Z.land b1 127 in
      let ext := if lenfield <? 126 then 0%nat
                 else if lenfield =? 126 then 2%nat else 8%nat in
      if (length rest <? ext)%nat then Incomplete
      else
        let len := if lenfield <? 126 then lenfield else be_value (take ext rest) in
        let masked := Z.testbit b1 7 in
        let klen := if masked then 4%nat else 0%nat in
        let rest' := drop ext rest in
        if Z.of_nat (length rest') <? Z.of_nat klen + len then Incomplete
        else if negb (known_opcode (Z.land b0 15)) then ProtocolError
        else
          let key := take klen rest' in
          let body := take (Z.to_nat len) (drop klen rest') in
          Decoded {| fin := Z.testbit b0 7;
                     opcode := Z.land b0 15;
                     payload := if masked then xor_mask key body else body |}
                  (2 + ext + klen + Z.to_nat len)
  | _ => Incomplete
  end.

(** Modelled from the spec: the client-side masking the round-trip
    property (8) applies to a frame of the server before decoding it: the
    mask bit is set, the 4-byte key follows the length field and the
    payload is masked with it. *)
Definition client_mask (key frame : list Z) : list Z :=
  match frame with
  | b0 :: b1 :: rest =>
      let lenfield := Z.land b1 127 in
      let ext := if lenfield <? 126 then 0%nat
                 else if lenfield =? 126 then 2%nat else 8%nat in
      b0 :: Z.lor b1 128 :: take ext rest ++ key ++ xor_mask key (drop ext rest)
  | _ => frame
  end.

(** Encode, mask as a client would, decode. *)
Definition roundtrip (junk : nat → Z) (key : list Z) (opcode : Z) (payload : loc)
  : M decoded :=
  frame ← encodeMessage junk opcode payload;
  bs ← gets (λ h : heap, default [] (h !! frame));
  mret (tryDecodeFrame (client_mask key bs)).

(** ** Well-formed handshake responses (RFC 7230, 3 and RFC 6455, 4.2.2) *)
Module Http.

(** The lines of a message: the pieces between CR LF pairs. *)
Fixpoint split_crlf (cur : list Z) (bs : list Z) : list (list Z) :=
  match bs with
  | [] => [rev cur]
  | b :: bs' =>
      if b =? CR then
        match bs' with
        | c :: bs'' =>
            if c =? LF then rev cur :: split_crlf [] bs''
            else split_crlf (b :: cur) bs'
        | [] => [rev (b :: cur)]
        end
      else split_crlf (b :: cur) bs'
  end.

(** The delimiters a field name cannot contain (double quote, parentheses,
    comma, slash, colon to at sign, brackets, backslash, braces). *)
Definition delimiters : list Z :=
  [34; 40; 41; 44; 47; 58; 59; 60; 61; 62; 63; 64; 91; 92; 93; 123; 125].

Definition is_tchar (c : Z) : bool :=
  (33 <=? c) && (c <? 127) && negb (bool_decide (c ∈ delimiters)).

(** The characters of a field value or reason phrase: visible characters,
    space, tab and the bytes above 127; neither CR nor LF. *)
Definition is_field_char (c : Z) : bool :=
  (c =? 9) || ((32 <=? c) && (c <? 127)) || ((128 <=? c) && (c <? 256)).

Definition is_ows (c : Z) : bool := (c =? 32) || (c =? 9).

Fixpoint drop_ows (s : list Z) : list Z :=
  match s with
  | c :: s' => if is_ows c then drop_ows s' else s
  | [] => []
  end.

Definition trim (s : list Z) : list Z := rev (drop_ows (rev (drop_ows s))).

Fixpoint split_colon (name : list Z) (s : list Z) : option (list Z * list Z) :=
  match s with
  | [] => None
  | c :: s' => if c =? 58 then Some (rev name, s') else split_colon (c :: name) s'
  end.

Definition lower (c : Z) : Z := if (65 <=? c) && (c <=? 90) then c + 32 else c.

(** A header line [name: value]: its name in lower case and its value
    without the optional white space around it.  Names, and the values
    of Upgrade and Connection, are compared without regard to case. *)
Definition parse_header (line : list Z) : option (list Z * list Z) :=
  match split_colon [] line with
  | Some (name, value) =>
      if negb (bool_decide (name = [])) && forallb is_tchar name
         && forallb is_field_char value
      then Some (lower <$> name, trim value)
      else None
  | None => None
  end.

Definition status_ok (line : list Z) : bool :=
  bool_decide (take 13 line = str "HTTP/1.1 101 ")
  && forallb is_field_char (drop 13 line).

(** Header lines, the empty line that ends them, and nothing after it. *)
Fixpoint headers_ok (ls : list (list Z)) : bool :=
  match ls with
  | [] => false
  | l :: ls' =>
      match l with
      | [] => bool_decide (ls' = [[]])
      | _ => match parse_header l with
             | Some _ => headers_ok ls'
             | None => false
             end
      end
  end.

Fixpoint field (name : list Z) (ls : list (list Z)) : option (list Z) :=
  match ls with
  | [] => None
  | l :: ls' =>
      match parse_header l with
      | Some (n, v) => if bool_decide (n = name) then Some v else field name ls'
      | None => field name ls'
      end
  end.

Definition well_formed_101 (accept : jsstring) (bs : list Z) : bool :=
  match split_crlf [] bs with
  | status :: ls =>
      status_ok status
      && headers_ok ls
      && bool_decide (fmap lower <$> field (str "upgrade") ls
                      = Some (str "websocket"))
      && bool_decide (fmap lower <$> field (str "connection") ls
                      = Some (str "upgrade"))
      && bool_decide (field (str "sec-websocket-accept") ls = Some accept)
  | [] => false
  end.

(** The response of RFC 6455, 4.2.2 for an accept value. *)
Definition rfc_response (accept : jsstring) : list Z :=
  str "HTTP/1.1 101 Switching Protocols" ++ [CR; LF] ++
  str "Upgrade: websocket" ++ [CR; LF] ++
  str "Connection: Upgrade" ++ [CR; LF] ++
  str "Sec-WebSocket-Accept: " ++ accept ++ [CR; LF] ++ [CR; LF].

End Http.

(** ** Runs and observations used in the statements below *)

(** The accept value as the specification words it (3 and 8): the key
    followed by the GUID of RFC 6455, hashed and encoded.  It is compared
    with [hashWebSocketKey] below. *)
Definition GUID_of_spec : jsstring := str "258EAFA5-E914-47DA-95CA-C5AB0DC85B11".

Definition accept_of_spec (key : jsstring) : jsstring :=
  Base64.encode (SHA1.digest (ascii_encode (key ++ GUID_of_spec))).

(** The payloads [send] accepts. *)
Definition is_payload (obj : JSValue) : bool :=
  match obj with VBuffer _ | VString _ => true | _ => false end.

(** The socket delivers a sequence of ['close'] signals, each with its
    [had_error] flag ([true] when the socket closed on a transport error):
    the handler runs once per signal. *)
Fixpoint deliver (sigs : list bool) : ST World unit :=
  match sigs with
  | [] => mret tt
  | had_error :: sigs' => on_close had_error;; deliver sigs'
  end.

(** The value of [this.closed] before the first signal and after each. *)
Fixpoint flags (sigs : list bool) (w : World) : list (option bool) :=
  this_closed w ::
  match sigs with
  | [] => []
  | had_error :: sigs' => flags sigs' (on_close had_error w).2
  end.

Definition is_close (e : Event) : bool :=
  match e with EvClose _ => true | EvData _ _ => false end.

(** How many ['close'] events the connection has emitted. *)
Fixpoint count_closes (es : list Event) : nat :=
  match es with
  | [] => 0
  | e :: es' => (if is_close e then 1 else 0) + count_closes es'
  end.

Definition closes (w : World) : nat := count_closes (w_emitted w).

(** A heap holding one Buffer, and sample inputs. *)
Definition one_buffer (bs : list Z) : heap := {[ 1%positive := bs ]}.
Definition zeros (n : Z) : list Z := replicate (Z.to_nat n) 0.
Definition sample_key : jsstring := str "dGhlIHNhbXBsZSBub25jZQ==".
Definition some_junk : nat → Z := λ i, 37 * Z.of_nat i + 11.

(** The first two lines of the response the constructor writes. *)
Definition response_line1 : jsstring :=
  str "HTTP/1.1 101 Web Socket Protocol Handshake ".
Definition response_line2 : jsstring := str "      Upgrade: WebSocket ".

(** A connection whose closed flag is set. *)
Definition closed_world : World :=
  set_closed (Some true) (blank (one_buffer [104; 105])).

(** ** The socket's ['data'] handler (server.js, lines 99-103) *)

(** [Buffer.concat([a, b])] of two Buffers: a new Buffer holding the bytes
    of the first followed by the bytes of the second.  [a] is the value of
    a field that may still be [undefined], which is no Buffer. *)
Definition Buffer_concat (a : option loc) (b : loc) : M loc := λ h,
  match a with
  | Some a' =>
      match h !! a', h !! b with
      | Some xs, Some ys =>
          let l := fresh (dom h) in (Ok l, <[l := xs ++ ys]> h)
      | _, _ => (Throw NotABuffer, h)
      end
  | None => (Throw NotABuffer, h)
  end.

(** [while (cond()) { }], bounded by [fuel] tests of the condition. *)
Fixpoint while_loop {S} (fuel : nat) (cond : ST S bool) : ST S unit :=
  match fuel with
  | O => throw LoopFuel
  | S fuel' => c ← cond; if c : bool then while_loop fuel' cond else mret tt
  end.

(** The handler: the chunk is appended to [this.buffer], then
    [this._processBuffer], a method server.js calls and does not define
    (here a parameter), runs until it returns false. *)
Definition on_data (fuel : nat) (processBuffer : ST World bool) (buf : loc)
  : ST World unit :=
  old ← gets this_buffer;
  joined ← lift (Buffer_concat old buf);
  modify (set_buffer (Some joined));;
  while_loop fuel processBuffer.

(** The socket delivers a sequence of chunks. *)
Fixpoint feed (fuel : nat) (processBuffer : ST World bool) (chunks : list loc)
  : ST World unit :=
  match chunks with
  | [] => mret tt
  | buf :: chunks' =>
      on_data fuel processBuffer buf;; feed fuel processBuffer chunks'
  end.

(** The frame [encodeMessage] builds for a payload of fewer than 65536
    bytes ([encodeMessage_any_opcode] below). *)
Definition frame_of (op : Z) (ps : list Z) : list Z :=
  if Z.of_nat (length ps) <? 126
  then [128 + op; Z.of_nat (length ps)] ++ ps
  else [128 + op; 126; Z.of_nat (length ps) / 256; Z.of_nat (length ps) mod 256]
       ++ ps.

(** A [_processBuffer] that finds no complete frame: it returns false and
    changes nothing. *)
Definition nothing_to_process : ST World bool := mret false.

(** Sample Buffers for the instances below. *)
Definition two_buffers : heap :=
  {[ 1%positive := [55; 250; 33; 61]; 2%positive := [127; 159; 77; 81; 88] ]}.
Definition three_buffers : heap :=
  {[ 1%positive := [55; 250; 33; 61]; 2%positive := [127; 159; 77; 81; 88];
     3%positive := [1; 2; 3; 4] ]}.

(** A string with a two-byte, a three-byte and a four-byte character. *)
Definition sample_text : jsstring := [233; 8364; 55357; 56832].

(** A connection whose [this.buffer] is Buffer 1 of [three_buffers]. *)
Definition receiving_world : World :=
  set_closed (Some false) (set_buffer (Some 1%positive) (blank three_buffers)).

(** * Properties *)

(** ** Stepping through a computation *)

Lemma bind_ok {S A B} (m : ST S A) (k : A → ST S B) s a s' :
  m s = (Ok a, s') → (m ≫= k) s = k a s'.
Proof. intros E. unfold mbind, ST_bind. by rewrite E. Qed.

Lemma for_loop_S {S} fuel (cond : Z → ST S bool) body i :
  for_loop (Datatypes.S fuel) cond body i =
    (c ← cond i; if c : bool then body i;; for_loop fuel cond body (i + 1) else mret tt).
Proof. reflexivity. Qed.

Lemma bind_throw {S A B} (m : ST S A) (k : A → ST S B) s e s' :
  m s = (Throw e, s') → (m ≫= k) s = (Throw e, s').
Proof. intros E. unfold mbind, ST_bind. by rewrite E. Qed.

(** ** Integer operators on bytes *)

Lemma ToInt32_small z : - 2^31 <= z < 2^31 → ToInt32 z = z.
Proof. intros H. unfold ToInt32. rewrite Z.mod_small; lia. Qed.

Lemma mod256_land z : z mod 256 = Z.land z 255.
Proof. change 255 with (Z.ones 8). by rewrite Z.land_ones. Qed.

Lemma mod256_byte z : is_byte (z mod 256).
Proof. unfold is_byte. apply Z.mod_pos_bound. lia. Qed.

Lemma testbit_255 n : 0 <= n → Z.testbit 255 n = (n <? 8).
Proof.
  intros Hn. change 255 with (Z.ones 8).
  destruct (Z.ltb_spec n 8).
  - apply Z.ones_spec_low. lia.
  - apply Z.ones_spec_high. lia.
Qed.

Lemma byte_land z : is_byte z → Z.land z 255 = z.
Proof. intros H. rewrite <- mod256_land. apply Z.mod_small. exact H. Qed.

(** Masking a byte twice with the same key value gives the byte back. *)
Lemma xor_twice (m : option Z) d :
  is_byte d →
  js_xor m (Some (js_xor m (Some d) mod 256)) mod 256 = d.
Proof.
  intros Hd. unfold js_xor at 1. cbn [ToInt32_opt].
  rewrite (ToInt32_small (_ mod 256)).
  2:{ pose proof (mod256_byte (js_xor m (Some d))) as Hb. unfold is_byte in Hb. lia. }
  unfold js_xor. cbn [ToInt32_opt].
  rewrite (ToInt32_small d) by (unfold is_byte in Hd; lia).
  rewrite !mod256_land.
  rewrite <- (byte_land d) at 2 by done.
  apply Z.bits_inj'. intros n Hn.
  rewrite !Z.land_spec, !Z.lxor_spec, !Z.land_spec, !Z.lxor_spec, testbit_255 by done.
  destruct (n <? 8), (Z.testbit (ToInt32_opt m) n), (Z.testbit d n); reflexivity.
Qed.

Lemma js_or_opcode op : op ∈ OP_CODES → js_or 128 op = 128 + op ∧ is_byte (128 + op).
Proof.
  unfold OP_CODES, is_byte. intros H.
  repeat (apply elem_of_cons in H as [-> | H]); [..| by apply elem_of_nil in H];
    vm_compute; intuition congruence.
Qed.

Lemma js_or_0 z : 0 <= z < 2^31 → js_or 0 z = z.
Proof.
  intros H. unfold js_or.
  rewrite (ToInt32_small z), (ToInt32_small 0) by lia. apply Z.lor_0_l.
Qed.

(** ** Buffer operations on a heap where the Buffers are known *)

Section BufferFacts.

Variable junk : nat → Z.

Lemma length_stale n : length (stale junk n) = n.
Proof. unfold stale. by rewrite length_fmap, length_seq. Qed.

Lemma fresh_lookup (h : heap) : h !! fresh (dom h) = None.
Proof. apply not_elem_of_dom. apply is_fresh. Qed.

Lemma fresh_ne (h : heap) l bs : h !! l = Some bs → l ≠ fresh (dom h).
Proof. intros E ->. rewrite fresh_lookup in E. done. Qed.

Lemma Buffer_length_ok (h : heap) b bs :
  h !! b = Some bs → Buffer_length b h = (Ok (Z.of_nat (length bs)), h).
Proof. intros E. unfold Buffer_length. by rewrite E. Qed.

Lemma Buffer_get_ok (h : heap) b bs i :
  h !! b = Some bs → 0 <= i →
  Buffer_get b i h = (Ok (bs !! Z.to_nat i), h).
Proof.
  intros E Hi. unfold Buffer_get. rewrite E.
  destruct (Z.leb_spec 0 i); [done | lia].
Qed.

Lemma Buffer_set_ok (h : heap) b bs i v :
  h !! b = Some bs → 0 <= i →
  Buffer_set b i v h = (Ok tt, <[b := <[Z.to_nat i := v mod 256]> bs]> h).
Proof.
  intros E Hi. unfold Buffer_set, store. rewrite E.
  destruct (Z.leb_spec 0 i); [done | lia].
Qed.

Lemma checkInt_ok (h : heap) b bs v off ext max :
  h !! b = Some bs → 0 <= v <= max → off + ext <= Z.of_nat (length bs) →
  checkInt b v off ext max 0 h = (Ok tt, h).
Proof.
  intros E Hv Ho. unfold checkInt.
  rewrite (bind_ok _ _ _ _ _ (Buffer_length_ok _ _ _ E)).
  destruct (Z.ltb_spec max v); [lia|].
  destruct (Z.ltb_spec v 0); [lia|]. cbn.
  destruct (Z.ltb_spec (Z.of_nat (length bs)) (off + ext)); [lia | done].
Qed.

Lemma checkInt_value (h : heap) b bs v off ext max :
  h !! b = Some bs → max < v →
  checkInt b v off ext max 0 h = (Throw ValueOutOfBounds, h).
Proof.
  intros E Hv. unfold checkInt.
  rewrite (bind_ok _ _ _ _ _ (Buffer_length_ok _ _ _ E)).
  destruct (Z.ltb_spec max v); [done | lia].
Qed.

Lemma writeUInt8_ok (h : heap) b bs v off :
  h !! b = Some bs → is_byte v → 0 <= off → off + 1 <= Z.of_nat (length bs) →
  writeUInt8 b v off h = (Ok (off + 1), <[b := <[Z.to_nat off := v]> bs]> h).
Proof.
  intros E Hv H0 Ho. unfold writeUInt8, is_byte in *.
  assert (0 <= v <= 255) as Hv' by lia.
  rewrite (bind_ok _ _ _ _ _ (checkInt_ok _ _ _ _ _ _ _ E Hv' Ho)).
  rewrite (bind_ok _ _ _ _ _ (Buffer_set_ok _ _ _ _ _ E H0)).
  rewrite Z.mod_small by lia. done.
Qed.

Lemma writeUInt8_throws (h : heap) b bs v off :
  h !! b = Some bs → 255 < v →
  writeUInt8 b v off h = (Throw ValueOutOfBounds, h).
Proof.
  intros E Hv. unfold writeUInt8.
  by rewrite (bind_throw _ _ _ _ _ (checkInt_value _ _ _ _ _ _ _ E Hv)).
Qed.

Lemma writeUInt16BE_ok (h : heap) b bs v off :
  h !! b = Some bs → 0 <= v <= 65535 → 0 <= off →
  off + 2 <= Z.of_nat (length bs) →
  writeUInt16BE b v off h =
    (Ok (off + 2),
     <[b := <[S (Z.to_nat off) := v mod 256]> (<[Z.to_nat off := v / 256]> bs)]> h).
Proof.
  intros E Hv H0 Ho. unfold writeUInt16BE.
  rewrite (bind_ok _ _ _ _ _ (checkInt_ok _ _ _ _ _ _ _ E Hv Ho)).
  rewrite (bind_ok _ _ _ _ _ (Buffer_set_ok _ _ _ _ _ E H0)).
  erewrite bind_ok; [| apply Buffer_set_ok; [apply lookup_insert_eq | lia]].
  rewrite insert_insert_eq.
  rewrite Z.shiftr_div_pow2 by lia. change (2 ^ 8) with 256.
  rewrite (Z.mod_small (v / 256)).
  2:{ split; [apply Z.div_pos; lia | apply Z.div_lt_upper_bound; lia]. }
  replace (Z.to_nat (off + 1)) with (S (Z.to_nat off)) by lia. done.
Qed.

(** Copying a whole Buffer into the room that is left for it. *)
Lemma Buffer_copy_ok (h : heap) s t src dst start :
  h !! s = Some src → h !! t = Some dst → 0 <= start →
  length dst = (Z.to_nat start + length src)%nat →
  ∃ n, Buffer_copy s t start h =
         (Ok n, <[t := take (Z.to_nat start) dst ++ src]> h).
Proof.
  intros Es Et H0 Hl. unfold Buffer_copy. rewrite Es, Et.
  destruct (Z.leb_spec (Z.of_nat (length dst)) start) as [Hge|Hlt]; cbn.
  - exists 0. assert (length src = 0%nat) as Hs by lia.
    apply nil_length_inv in Hs as ->.
    rewrite app_nil_r, take_ge by lia. by rewrite insert_id.
  - destruct (Z.leb_spec (Z.of_nat (length src)) 0) as [Hs|Hs].
    + lia.
    + eexists. f_equal. f_equal. unfold blit.
      replace (length dst - Z.to_nat start)%nat with (length src) by lia.
      rewrite Nat.min_id, firstn_all, drop_ge by lia. by rewrite app_nil_r.
Qed.

Lemma Buffer_copy_seq {B} (k : M B) (h : heap) s t src dst start :
  h !! s = Some src → h !! t = Some dst → 0 <= start →
  length dst = (Z.to_nat start + length src)%nat →
  (Buffer_copy s t start ≫= λ _, k) h
  = k (<[t := take (Z.to_nat start) dst ++ src]> h).
Proof.
  intros Es Et H0 Hl.
  destruct (Buffer_copy_ok h s t src dst start Es Et H0 Hl) as [n Hn].
  by rewrite (bind_ok _ _ _ _ _ Hn).
Qed.

End BufferFacts.

(** ** [unmask] *)

Section UnmaskFacts.

Variable junk : nat → Z.

Lemma length_xor_mask key data : length (xor_mask key data) = length data.
Proof. unfold xor_mask. apply length_imap. Qed.

Lemma lookup_xor_mask key data i d :
  data !! i = Some d →
  xor_mask key data !! i = Some (js_xor (key !! (i mod 4)%nat) (Some d) mod 256).
Proof. intros E. unfold xor_mask. by rewrite list_lookup_imap, E. Qed.

Lemma bytes_xor_mask key data : bytes (xor_mask key data).
Proof.
  unfold bytes. apply Forall_lookup. intros i x Hx.
  destruct (data !! i) as [d|] eqn:E.
  - rewrite (lookup_xor_mask _ _ _ _ E) in Hx. injection Hx as <-. apply mod256_byte.
  - apply lookup_ge_None in E. apply lookup_lt_Some in Hx.
    rewrite length_xor_mask in Hx. lia.
Qed.

(** The loop of [unmask], started at index [i] with [cur] in the new
    Buffer: it leaves the first [i] bytes and fills in the rest. *)
Lemma unmask_loop (h : heap) maskBytes data p ms ds :
  h !! maskBytes = Some ms → h !! data = Some ds → h !! p = None →
  ∀ k i cur,
    length cur = length ds → (i + k = length ds)%nat →
    for_loop (S k)
      (λ i, len ← Buffer_length data; mret (i <? len))
      (λ i, m ← Buffer_get maskBytes (i `mod` 4);
            d ← Buffer_get data i;
            Buffer_set p i (js_xor m d))
      (Z.of_nat i) (<[p := cur]> h)
    = (Ok tt, <[p := take i cur ++ drop i (xor_mask ms ds)]> h).
Proof.
  intros Em Ed Ep.
  assert (maskBytes ≠ p) as Hmp by (intros ->; congruence).
  assert (data ≠ p) as Hdp by (intros ->; congruence).
  assert (∀ c, <[p:=c]> h !! data = Some ds) as Ed'
    by (intros; by rewrite lookup_insert_ne).
  assert (∀ c, <[p:=c]> h !! maskBytes = Some ms) as Em'
    by (intros; by rewrite lookup_insert_ne).
  assert (∀ (i : Z) c,
    (Buffer_length data ≫= λ len, mret (i <? len)) (<[p:=c]> h)
    = (Ok (i <? Z.of_nat (length ds)), <[p:=c]> h)) as Hcond.
  { intros i c. by rewrite (bind_ok _ _ _ _ _ (Buffer_length_ok _ _ _ (Ed' c))). }
  induction k as [|k IH]; intros i cur Hlen Hi.
  - rewrite for_loop_S.
    rewrite (bind_ok _ _ _ _ _ (Hcond _ _)).
    destruct (Z.ltb_spec (Z.of_nat i) (Z.of_nat (length ds))); [lia|].
    unfold mret, ST_ret. f_equal. f_equal.
    rewrite drop_ge by (rewrite length_xor_mask; lia).
    rewrite take_ge by lia. by rewrite app_nil_r.
  - rewrite for_loop_S.
    rewrite (bind_ok _ _ _ _ _ (Hcond _ _)).
    destruct (Z.ltb_spec (Z.of_nat i) (Z.of_nat (length ds))); [|lia].
    destruct (lookup_lt_is_Some_2 ds i ltac:(lia)) as [d Hd].
    assert (0 <= Z.of_nat i `mod` 4) as Hm by (apply Z.mod_pos_bound; lia).
    erewrite bind_ok.
    2:{ erewrite bind_ok; [| apply Buffer_get_ok; [apply Em' | exact Hm]].
        erewrite bind_ok; [| apply Buffer_get_ok; [apply Ed' | lia]].
        apply Buffer_set_ok; [apply lookup_insert_eq | lia]. }
    rewrite insert_insert_eq.
    replace (Z.of_nat i + 1) with (Z.of_nat (S i)) by lia.
    rewrite IH by (rewrite ?length_insert; lia).
    f_equal. f_equal.
    rewrite !Nat2Z.id, Hd.
    replace (Z.to_nat (Z.of_nat i `mod` 4)) with (i mod 4)%nat
      by (rewrite <- (Nat2Z.id (i mod 4)), Nat2Z.inj_mod; done).
    rewrite (take_S_r _ _ (js_xor (ms !! (i mod 4)%nat) (Some d) mod 256)).
    2:{ apply list_lookup_insert_eq. lia. }
    rewrite take_insert_ge by lia.
    rewrite <- app_assoc. f_equal. cbn [app].
    symmetry. apply drop_S. by apply lookup_xor_mask.
Qed.

(** [unmask] allocates one Buffer, fills it with the masked data and
    returns it. *)
Lemma unmask_spec (h : heap) maskBytes data ms ds :
  h !! maskBytes = Some ms → h !! data = Some ds →
  unmask junk maskBytes data h =
    (Ok (fresh (dom h)), <[fresh (dom h) := xor_mask ms ds]> h).
Proof.
  intros Em Ed. unfold unmask.
  rewrite (bind_ok _ _ _ _ _ (Buffer_length_ok _ _ _ Ed)).
  erewrite bind_ok; [| reflexivity].
  rewrite Nat2Z.id.
  erewrite bind_ok.
  2:{ apply (unmask_loop h maskBytes data _ ms ds Em Ed (fresh_lookup h)
               (length ds) 0%nat); [apply length_stale | lia]. }
  rewrite take_0, drop_0. done.
Qed.

(** The Buffer [unmask] returns holds bytes, like the others. *)
Lemma unmask_heap_ok (h : heap) maskBytes data ms ds :
  heap_ok h → h !! maskBytes = Some ms → h !! data = Some ds →
  heap_ok (unmask junk maskBytes data h).2.
Proof.
  intros Hh Em Ed. rewrite (unmask_spec h maskBytes data ms ds Em Ed). cbn [snd].
  intros l bs. destruct (decide (l = fresh (dom h))) as [->|Hne].
  - rewrite lookup_insert_eq. intros [= <-]. apply bytes_xor_mask.
  - rewrite lookup_insert_ne by done. apply Hh.
Qed.

Lemma xor_mask_twice key data : bytes data → xor_mask key (xor_mask key data) = data.
Proof.
  intros Hb. apply list_eq. intros i.
  destruct (data !! i) as [d|] eqn:E.
  - rewrite (lookup_xor_mask _ _ _ _ (lookup_xor_mask _ _ _ _ E)).
    f_equal. apply xor_twice. by eapply (Forall_lookup_1 _ _ _ _ Hb).
  - apply lookup_ge_None. rewrite !length_xor_mask. by apply lookup_ge_None.
Qed.

End UnmaskFacts.

(** ** [encodeMessage] *)

Section EncodeFacts.

Variable junk : nat → Z.

Lemma take2_header (st : list Z) b1 b2 :
  (2 <= length st)%nat → take 2 (<[1%nat := b2]> (<[0%nat := b1]> st)) = [b1; b2].
Proof. destruct st as [|x [|y st]]; cbn; intros; [lia | lia | done]. Qed.

Lemma take4_header (st : list Z) b1 b2 b3 b4 :
  (4 <= length st)%nat →
  take 4 (<[3%nat := b4]> (<[2%nat := b3]> (<[1%nat := b2]> (<[0%nat := b1]> st))))
  = [b1; b2; b3; b4].
Proof.
  destruct st as [|x [|y [|z [|t st]]]]; cbn; intros; try lia. done.
Qed.

(** A payload of fewer than 126 bytes: two header bytes, then the
    payload. *)
Lemma encodeMessage_small (h : heap) op payload ps :
  h !! payload = Some ps → op ∈ OP_CODES → Z.of_nat (length ps) < 126 →
  encodeMessage junk op payload h =
    (Ok (fresh (dom h)),
     <[fresh (dom h) := [128 + op; Z.of_nat (length ps)] ++ ps]> h).
Proof.
  intros Ep Hop Hlen. unfold encodeMessage. cbv zeta.
  destruct (js_or_opcode op Hop) as [-> Hb1].
  rewrite (bind_ok _ _ _ _ _ (Buffer_length_ok _ _ _ Ep)).
  destruct (Z.ltb_spec (Z.of_nat (length ps)) 126); [|lia].
  rewrite (bind_ok _ _ _ _ _ (Buffer_length_ok _ _ _ Ep)).
  erewrite bind_ok; [| reflexivity].
  set (l := fresh (dom h)).
  assert (payload ≠ l) as Hne by (by eapply fresh_ne).
  set (st := stale junk _).
  assert (length st = S (S (length ps))) as Hst
    by (unfold st; rewrite length_stale; lia).
  erewrite bind_ok.
  2:{ apply writeUInt8_ok; [apply lookup_insert_eq | done | lia | lia]. }
  rewrite insert_insert_eq.
  rewrite js_or_0 by lia.
  erewrite bind_ok.
  2:{ apply writeUInt8_ok;
        [apply lookup_insert_eq | unfold is_byte; lia | lia
        | rewrite length_insert; lia]. }
  rewrite insert_insert_eq.
  erewrite Buffer_copy_seq;
    [| rewrite lookup_insert_ne by done; exact Ep | apply lookup_insert_eq | lia
     | rewrite !length_insert; lia].
  rewrite insert_insert_eq.
  unfold mret, ST_ret. f_equal. f_equal.
  change (Z.to_nat 2) with 2%nat. change (Z.to_nat 1) with 1%nat.
  change (Z.to_nat 0) with 0%nat.
  rewrite take2_header by lia. done.
Qed.

(** A payload of 126 to 65535 bytes: the length field 126, the length
    in two bytes, most significant first, then the payload. *)
Lemma encodeMessage_medium (h : heap) op payload ps :
  h !! payload = Some ps → op ∈ OP_CODES →
  126 <= Z.of_nat (length ps) < 65536 →
  encodeMessage junk op payload h =
    (Ok (fresh (dom h)),
     <[fresh (dom h) :=
         [128 + op; 126; Z.of_nat (length ps) / 256; Z.of_nat (length ps) mod 256]
         ++ ps]> h).
Proof.
  intros Ep Hop Hlen. unfold encodeMessage. cbv zeta.
  destruct (js_or_opcode op Hop) as [-> Hb1].
  rewrite (bind_ok _ _ _ _ _ (Buffer_length_ok _ _ _ Ep)).
  destruct (Z.ltb_spec (Z.of_nat (length ps)) 126); [lia|].
  change (Z.shiftl 1 16) with 65536.
  destruct (Z.ltb_spec (Z.of_nat (length ps)) 65536); [|lia].
  rewrite (bind_ok _ _ _ _ _ (Buffer_length_ok _ _ _ Ep)).
  erewrite bind_ok; [| reflexivity].
  set (l := fresh (dom h)).
  assert (payload ≠ l) as Hne by (by eapply fresh_ne).
  set (st := stale junk _).
  assert (length st = S (S (S (S (length ps))))) as Hst
    by (unfold st; rewrite length_stale; lia).
  erewrite bind_ok.
  2:{ apply writeUInt8_ok; [apply lookup_insert_eq | done | lia | lia]. }
  rewrite insert_insert_eq.
  rewrite js_or_0 by lia.
  erewrite bind_ok.
  2:{ apply writeUInt8_ok;
        [apply lookup_insert_eq | unfold is_byte; lia | lia
        | rewrite length_insert; lia]. }
  rewrite insert_insert_eq.
  erewrite bind_ok.
  2:{ apply writeUInt16BE_ok;
        [apply lookup_insert_eq | lia | lia | rewrite !length_insert; lia]. }
  rewrite insert_insert_eq.
  erewrite Buffer_copy_seq;
    [| rewrite lookup_insert_ne by done; exact Ep | apply lookup_insert_eq | lia
     | rewrite !length_insert; lia].
  rewrite insert_insert_eq.
  unfold mret, ST_ret. f_equal. f_equal.
  change (Z.to_nat 4) with 4%nat. change (Z.to_nat 2) with 2%nat.
  change (Z.to_nat 1) with 1%nat. change (Z.to_nat 0) with 0%nat.
  rewrite take4_header by lia. done.
Qed.

(** A payload of 65536 bytes or more: the fourth write, of the whole
    length into one byte, is refused, and no frame is returned. *)
Lemma encodeMessage_large (h : heap) op payload ps :
  h !! payload = Some ps → op ∈ OP_CODES → 65536 <= Z.of_nat (length ps) →
  encodeMessage junk op payload h =
    (Throw ValueOutOfBounds,
     <[fresh (dom h) :=
         <[2%nat := 0]> (<[1%nat := 127]> (<[0%nat := 128 + op]>
           (stale junk (length ps + 10))))]> h).
Proof.
  intros Ep Hop Hlen. unfold encodeMessage. cbv zeta.
  destruct (js_or_opcode op Hop) as [-> Hb1].
  rewrite (bind_ok _ _ _ _ _ (Buffer_length_ok _ _ _ Ep)).
  destruct (Z.ltb_spec (Z.of_nat (length ps)) 126); [lia|].
  change (Z.shiftl 1 16) with 65536.
  destruct (Z.ltb_spec (Z.of_nat (length ps)) 65536); [lia|].
  rewrite (bind_ok _ _ _ _ _ (Buffer_length_ok _ _ _ Ep)).
  erewrite bind_ok; [| reflexivity].
  replace (Z.to_nat (Z.of_nat (length ps) + 2 + 8)) with (length ps + 10)%nat by lia.
  set (l := fresh (dom h)).
  set (st := stale junk _).
  assert (10 <= length st)%nat as Hst
    by (unfold st; rewrite length_stale; lia).
  erewrite bind_ok.
  2:{ apply writeUInt8_ok; [apply lookup_insert_eq | done | lia | lia]. }
  rewrite insert_insert_eq.
  erewrite bind_ok.
  2:{ apply writeUInt8_ok;
        [apply lookup_insert_eq | by vm_compute | lia
        | rewrite length_insert; lia]. }
  rewrite insert_insert_eq.
  erewrite bind_ok.
  2:{ apply writeUInt8_ok;
        [apply lookup_insert_eq | by vm_compute | lia
        | rewrite !length_insert; lia]. }
  rewrite insert_insert_eq.
  erewrite bind_throw.
  2:{ eapply writeUInt8_throws; [apply lookup_insert_eq | lia]. }
  reflexivity.
Qed.

End EncodeFacts.

(** ** Encoding, masking and decoding *)

Section RoundtripFacts.

Variable junk : nat → Z.

Lemma opcode_bits op :
  op ∈ OP_CODES →
  Z.land (128 + op) 15 = op ∧ Z.testbit (128 + op) 7 = true
  ∧ known_opcode op = true.
Proof.
  unfold OP_CODES. intros H.
  repeat (apply elem_of_cons in H as [-> | H]); [..| by apply elem_of_nil in H];
    by vm_compute.
Qed.

Lemma small_length_bits n :
  0 <= n < 126 →
  Z.land n 127 = n ∧ Z.land (Z.lor n 128) 127 = n
  ∧ Z.testbit (Z.lor n 128) 7 = true.
Proof.
  intros Hn.
  assert (Forall (λ n, Z.land n 127 = n ∧ Z.land (Z.lor n 128) 127 = n
                       ∧ Z.testbit (Z.lor n 128) 7 = true) (seqZ 0 126)) as HF.
  { eapply bool_decide_eq_true_1. vm_compute. reflexivity. }
  apply (proj1 (Forall_forall _ _) HF). apply elem_of_seqZ. lia.
Qed.

Lemma be_value_2 n : 0 <= n → be_value [n / 256; n mod 256] = n.
Proof.
  intros Hn. unfold be_value. cbn [fold_left].
  pose proof (Z.div_mod n 256). lia.
Qed.

Lemma tryDecodeFrame_small key op ps :
  op ∈ OP_CODES → length key = 4%nat → bytes ps →
  Z.of_nat (length ps) < 126 →
  tryDecodeFrame (client_mask key ([128 + op; Z.of_nat (length ps)] ++ ps))
  = Decoded {| fin := true; opcode := op; payload := ps |} (6 + length ps).
Proof.
  intros Hop Hk Hb Hn.
  destruct (opcode_bits op Hop) as (Hop1 & Hop2 & Hop3).
  destruct (small_length_bits (Z.of_nat (length ps)) ltac:(lia)) as (Hl0 & Hl1 & Hl2).
  unfold client_mask. cbn [app]. rewrite Hl0.
  destruct (Z.ltb_spec (Z.of_nat (length ps)) 126); [|lia].
  rewrite take_0, drop_0. cbn [app].
  unfold tryDecodeFrame. rewrite Hl1, Hl2, Hop1, Hop2, Hop3.
  destruct (Z.ltb_spec (Z.of_nat (length ps)) 126); [|lia].
  cbn [Nat.ltb Nat.leb negb]. rewrite drop_0.
  rewrite length_app, length_xor_mask, Hk.
  destruct (Z.ltb_spec (Z.of_nat (4 + length ps)) (Z.of_nat 4 + Z.of_nat (length ps)));
    [lia|].
  rewrite <- Hk at 1 2. rewrite take_app_length, drop_app_length.
  rewrite Nat2Z.id, <- (length_xor_mask key ps) at 1. rewrite firstn_all.
  rewrite xor_mask_twice by done.
  f_equal; lia.
Qed.

Lemma tryDecodeFrame_medium key op ps :
  op ∈ OP_CODES → length key = 4%nat → bytes ps →
  126 <= Z.of_nat (length ps) < 65536 →
  tryDecodeFrame
    (client_mask key
       ([128 + op; 126; Z.of_nat (length ps) / 256; Z.of_nat (length ps) mod 256]
        ++ ps))
  = Decoded {| fin := true; opcode := op; payload := ps |} (8 + length ps).
Proof.
  intros Hop Hk Hb Hn.
  destruct (opcode_bits op Hop) as (Hop1 & Hop2 & Hop3).
  unfold client_mask. cbn [app].
  change (Z.land 126 127) with 126. change (126 <? 126) with false.
  change (126 =? 126) with true. cbn [take drop app].
  rewrite !take_0, !drop_0. cbn [app].
  change (Z.lor 126 128) with 254.
  unfold tryDecodeFrame. rewrite Hop1, Hop2, Hop3.
  change (Z.land 254 127) with 126. change (126 <? 126) with false.
  change (126 =? 126) with true. change (Z.testbit 254 7) with true.
  cbn [take drop negb length Nat.ltb Nat.leb].
  rewrite !take_0, !drop_0. cbn [app].
  rewrite be_value_2 by lia.
  rewrite length_app, length_xor_mask, Hk.
  destruct (Z.ltb_spec (Z.of_nat (4 + length ps)) (Z.of_nat 4 + Z.of_nat (length ps)));
    [lia|].
  rewrite <- Hk at 1 2. rewrite take_app_length, drop_app_length.
  rewrite Nat2Z.id, <- (length_xor_mask key ps) at 1. rewrite firstn_all.
  rewrite xor_mask_twice by done.
  f_equal; lia.
Qed.

(** The round trip gives the opcode and the payload back for every
    payload of fewer than 65536 bytes. *)
Lemma roundtrip_below_65536 (h : heap) key op payload ps :
  h !! payload = Some ps → bytes ps → length key = 4%nat → op ∈ OP_CODES →
  Z.of_nat (length ps) < 65536 →
  ∃ n, (roundtrip junk key op payload h).1
       = Ok (Decoded {| fin := true; opcode := op; payload := ps |} n).
Proof.
  intros Ep Hb Hk Hop Hn. unfold roundtrip.
  destruct (Z.lt_ge_cases (Z.of_nat (length ps)) 126) as [Hs|Hm].
  - rewrite (bind_ok _ _ _ _ _ (encodeMessage_small junk h op payload ps Ep Hop Hs)).
    erewrite bind_ok; [| reflexivity].
    rewrite lookup_insert_eq. cbn [default].
    eexists. unfold mret, ST_ret. cbn [fst]. f_equal. by apply tryDecodeFrame_small.
  - rewrite (bind_ok _ _ _ _ _
               (encodeMessage_medium junk h op payload ps Ep Hop ltac:(lia))).
    erewrite bind_ok; [| reflexivity].
    rewrite lookup_insert_eq. cbn [default].
    eexists. unfold mret, ST_ret. cbn [fst]. f_equal.
    apply tryDecodeFrame_medium; [done..|lia].
Qed.

(** ... and fails for every payload of 65536 bytes or more. *)
Lemma roundtrip_large (h : heap) key op payload ps :
  h !! payload = Some ps → op ∈ OP_CODES → 65536 <= Z.of_nat (length ps) →
  (roundtrip junk key op payload h).1 = Throw ValueOutOfBounds.
Proof.
  intros Ep Hop Hn. unfold roundtrip.
  by rewrite (bind_throw _ _ _ _ _ (encodeMessage_large junk h op payload ps Ep Hop Hn)).
Qed.

End RoundtripFacts.

(** * The claims *)

(** ** Handshake key *)

Lemma hashWebSocketKey_unfold key :
  hashWebSocketKey key =
    Base64.encode
      (SHA1.digest (ascii_encode (key ++ str "258EAFA5-E914-47DA-95CA-C5ABODC85B11"))).
Proof. reflexivity. Qed.

(** The suffix of the source has the letter O (code 79) where the GUID has
    the digit 0 (code 48), at index 28; the two agree everywhere else. *)
Lemma KEY_SUFFIX_slip :
  KEY_SUFFIX !! 28%nat = Some 79 ∧ GUID_of_spec !! 28%nat = Some 48
  ∧ <[28%nat := 48]> KEY_SUFFIX = GUID_of_spec.
Proof. by vm_compute. Qed.

(** With the GUID of the specification, SHA-1 and base64 as embedded here
    give the accept value of RFC 6455 for its sample key. *)
Lemma accept_of_spec_sample :
  accept_of_spec sample_key = str "s3pPLMBiTxaQ9kYGzzhZRbK+xOo=".
Proof. by vm_compute. Qed.

Lemma sha1_abc :
  SHA1.digest (str "abc") =
    [169; 153; 62; 54; 71; 6; 129; 106; 186; 62; 37; 113; 120; 80; 194; 108;
     156; 208; 216; 157].
Proof. by vm_compute. Qed.

(** C1 (fails on the code): for the sample key of RFC 6455,
    "dGhlIHNhbXBsZSBub25jZQ==", [hashWebSocketKey] returns
    "kPwvuHQ2uC+Mb+KxZ13S5SPYvUw=", which is neither the accept value
    "s3pPLMBiTxaQ9kYGzzhZRbK+xOo=" of the claim nor the hash of the key
    followed by the GUID 258EAFA5-E914-47DA-95CA-C5AB0DC85B11: the
    constant [KEY_SUFFIX] of the source is misspelt. *)
Theorem hashWebSocketKey_sample :
  hashWebSocketKey (str "dGhlIHNhbXBsZSBub25jZQ==") = str "kPwvuHQ2uC+Mb+KxZ13S5SPYvUw="
  ∧ hashWebSocketKey (str "dGhlIHNhbXBsZSBub25jZQ==") ≠ str "s3pPLMBiTxaQ9kYGzzhZRbK+xOo="
  ∧ hashWebSocketKey (str "dGhlIHNhbXBsZSBub25jZQ==")
    ≠ accept_of_spec (str "dGhlIHNhbXBsZSBub25jZQ==").
Proof. by vm_compute. Qed.

(** ** Frames *)

Lemma one_buffer_lookup bs : one_buffer bs !! 1%positive = Some bs.
Proof. apply lookup_singleton_eq. Qed.

Lemma length_zeros n : 0 <= n → Z.of_nat (length (zeros n)) = n.
Proof. intros H. unfold zeros. rewrite length_replicate. lia. Qed.

Lemma OP_TEXT_known : OP_TEXT ∈ OP_CODES.
Proof. unfold OP_CODES. set_solver. Qed.

Lemma OP_BINARY_known : OP_BINARY ∈ OP_CODES.
Proof. unfold OP_CODES. set_solver. Qed.

(** What C2 says holds for every payload of fewer than 65536 bytes: the
    frame is the header, with fin set, no mask bit and the length inline
    or in two bytes, followed by the payload. *)
Lemma encodeMessage_frame junk (h : heap) op payload ps :
  h !! payload = Some ps → op ∈ OP_CODES → Z.of_nat (length ps) < 65536 →
  ∃ buf header,
    encodeMessage junk op payload h = (Ok buf, <[buf := header ++ ps]> h)
    ∧ h !! buf = None
    ∧ header !! 0%nat = Some (Z.lor 128 op)
    ∧ (Z.of_nat (length ps) < 126 →
       header = [Z.lor 128 op; Z.of_nat (length ps)])
    ∧ (126 <= Z.of_nat (length ps) →
       header = [Z.lor 128 op; 126;
                 Z.of_nat (length ps) / 256; Z.of_nat (length ps) mod 256])
    ∧ ∃ b2, header !! 1%nat = Some b2 ∧ Z.testbit b2 7 = false.
Proof.
  intros Ep Hop Hn.
  assert (Z.lor 128 op = 128 + op) as ->.
  { destruct (js_or_opcode op Hop) as [<- _]. unfold js_or.
    unfold OP_CODES in Hop.
    repeat (apply elem_of_cons in Hop as [-> | Hop]); [..| by apply elem_of_nil in Hop];
      by vm_compute. }
  destruct (Z.lt_ge_cases (Z.of_nat (length ps)) 126) as [Hs|Hm].
  - eexists _, _. split; [by apply encodeMessage_small|].
    split; [apply fresh_lookup|]. split; [done|].
    split; [done|]. split; [lia|].
    eexists. split; [done|].
    destruct (small_length_bits _ (conj (Nat2Z.is_nonneg (length ps)) Hs)) as (H0 & _ & _).
    rewrite <- H0. rewrite Z.land_spec. change (Z.testbit 127 7) with false.
    apply andb_false_r.
  - eexists _, _. split; [apply encodeMessage_medium; [done..|lia]|].
    split; [apply fresh_lookup|]. split; [done|].
    split; [lia|]. split; [done|].
    eexists. split; [done|]. by vm_compute.
Qed.

(** C2 (fails on the code): for the opcode TEXT and a payload of 65536
    bytes [encodeMessage] returns no frame at all: it throws when it
    writes the length, whatever the allocator's memory held.  (For the
    payloads of fewer than 65536 bytes the claim holds:
    [encodeMessage_frame].) *)
Theorem encodeMessage_65536_no_frame junk :
  (encodeMessage junk OP_TEXT 1%positive (one_buffer (zeros 65536))).1
  = Throw ValueOutOfBounds.
Proof.
  rewrite (encodeMessage_large junk (one_buffer (zeros 65536)) OP_TEXT 1%positive
             (zeros 65536) (one_buffer_lookup _) OP_TEXT_known); [done|].
  rewrite length_zeros; lia.
Qed.

(** C3 (fails on the code): for a payload of 65536 bytes, one of the
    lengths of the claim, and either opcode, encoding, masking and
    decoding gives no frame back, since the encoder throws.  (For the
    payloads of fewer than 65536 bytes the round trip gives the opcode
    and the payload back: [roundtrip_below_65536].) *)
Theorem roundtrip_65536_fails junk key :
  (roundtrip junk key OP_TEXT 1%positive (one_buffer (zeros 65536))).1
  = Throw ValueOutOfBounds
  ∧ (roundtrip junk key OP_BINARY 1%positive (one_buffer (zeros 65536))).1
    = Throw ValueOutOfBounds.
Proof.
  split; eapply roundtrip_large;
    eauto using one_buffer_lookup, OP_TEXT_known, OP_BINARY_known;
    rewrite length_zeros; lia.
Qed.

(** C5 (fails on the code): for every payload whose length exceeds 65535
    and every recognized opcode, [encodeMessage] returns no frame, with or
    without an 8-byte length field: after the two header bytes and one
    zero byte, at offset 2, it passes the whole length to [writeUInt8],
    which refuses a value above 255.  The Buffers that existed before are
    unchanged; the Buffer it abandons holds those three bytes and, from
    offset 3 on, what the memory held before: the length is written
    nowhere. *)
Theorem encodeMessage_extended_length_refused junk (h : heap) op payload ps :
  h !! payload = Some ps → op ∈ OP_CODES → 65535 < Z.of_nat (length ps) →
  ∃ h', encodeMessage junk op payload h = (Throw ValueOutOfBounds, h')
        ∧ (∀ l bs, h !! l = Some bs → h' !! l = Some bs)
        ∧ h' !! fresh (dom h)
          = Some ([Z.lor 128 op; 127; 0] ++ drop 3 (stale junk (length ps + 10))).
Proof.
  intros Ep Hop Hn.
  rewrite (encodeMessage_large junk h op payload ps Ep Hop ltac:(lia)).
  eexists. split; [reflexivity|]. split.
  - intros l bs Hl. rewrite lookup_insert_ne; [done|]. symmetry. by eapply fresh_ne.
  - rewrite lookup_insert_eq. f_equal.
    assert (Z.lor 128 op = 128 + op) as ->.
    { destruct (js_or_opcode op Hop) as [<- _]. unfold js_or.
      unfold OP_CODES in Hop.
      repeat (apply elem_of_cons in Hop as [-> | Hop]);
        [..| by apply elem_of_nil in Hop]; by vm_compute. }
    pose proof (length_stale junk (length ps + 10)) as Hl.
    destruct (stale junk (length ps + 10)) as [|x [|y [|z st]]]; cbn in Hl; try lia.
    reflexivity.
Qed.

Lemma encodeMessage_extended_length_refused_witness :
  one_buffer (zeros 65536) !! 1%positive = Some (zeros 65536)
  ∧ OP_BINARY ∈ OP_CODES
  ∧ 65535 < Z.of_nat (length (zeros 65536))
  ∧ ∃ h', encodeMessage some_junk OP_BINARY 1%positive (one_buffer (zeros 65536))
          = (Throw ValueOutOfBounds, h')
          ∧ (∀ l bs, one_buffer (zeros 65536) !! l = Some bs → h' !! l = Some bs)
          ∧ h' !! fresh (dom (one_buffer (zeros 65536)))
            = Some ([Z.lor 128 OP_BINARY; 127; 0]
                    ++ drop 3 (stale some_junk (length (zeros 65536) + 10))).
Proof.
  assert (one_buffer (zeros 65536) !! 1%positive = Some (zeros 65536)) as H1
    by apply one_buffer_lookup.
  assert (OP_BINARY ∈ OP_CODES) as H2 by exact OP_BINARY_known.
  assert (65535 < Z.of_nat (length (zeros 65536))) as H3
    by (rewrite length_zeros; lia).
  split; [exact H1|]. split; [exact H2|]. split; [exact H3|].
  exact (encodeMessage_extended_length_refused some_junk _ _ _ _ H1 H2 H3).
Defined.

(** ** Masking *)

(** C4: for every mask key and every payload, unmasking the result of
    [unmask] with the same key gives a Buffer with the bytes of the
    original payload.  The key is any Buffer, in particular one of 4
    bytes. *)
Theorem unmask_involution junk (h : heap) maskBytes data ms ds :
  h !! maskBytes = Some ms → h !! data = Some ds → bytes ds →
  ∃ p1 h1 p2 h2,
    unmask junk maskBytes data h = (Ok p1, h1)
    ∧ unmask junk maskBytes p1 h1 = (Ok p2, h2)
    ∧ h2 !! p2 = Some ds.
Proof.
  intros Em Ed Hb.
  eexists _, _, _, _. split; [by apply unmask_spec|].
  split.
  - apply unmask_spec.
    + rewrite lookup_insert_ne; [exact Em | symmetry; by eapply fresh_ne].
    + apply lookup_insert_eq.
  - rewrite lookup_insert_eq. f_equal. by apply xor_mask_twice.
Qed.

Lemma unmask_involution_witness :
  ∃ p1 h1 p2 h2,
    unmask some_junk 1%positive 2%positive
      {[ 1%positive := [55; 250; 33; 61]; 2%positive := [127; 159; 77; 81; 88] ]}
    = (Ok p1, h1)
    ∧ unmask some_junk 1%positive p1 h1 = (Ok p2, h2)
    ∧ h2 !! p2 = Some [127; 159; 77; 81; 88].
Proof.
  apply (unmask_involution some_junk _ 1%positive 2%positive
           [55; 250; 33; 61] [127; 159; 77; 81; 88]).
  - reflexivity.
  - reflexivity.
  - unfold bytes, is_byte. repeat constructor; lia.
Defined.

(** C10: for every mask key and every data Buffer, [unmask] returns a
    Buffer that was not allocated before, of exactly the length of the
    data, and leaves every Buffer that existed before as it was, the data
    and the mask key among them (also when they are the same Buffer). *)
Theorem unmask_fresh_frame junk (h : heap) maskBytes data ms ds :
  h !! maskBytes = Some ms → h !! data = Some ds →
  ∃ payload bs h',
    unmask junk maskBytes data h = (Ok payload, h')
    ∧ h !! payload = None
    ∧ h' !! payload = Some bs
    ∧ length bs = length ds
    ∧ h' !! data = Some ds
    ∧ h' !! maskBytes = Some ms
    ∧ ∀ l, l ≠ payload → h' !! l = h !! l.
Proof.
  intros Em Ed.
  eexists _, _, _. split; [by apply unmask_spec|].
  split; [apply fresh_lookup|].
  split; [apply lookup_insert_eq|].
  split; [apply length_xor_mask|].
  split; [rewrite lookup_insert_ne; [done | symmetry; by eapply fresh_ne]|].
  split; [rewrite lookup_insert_ne; [done | symmetry; by eapply fresh_ne]|].
  intros l Hl. by rewrite lookup_insert_ne.
Qed.

Lemma unmask_fresh_frame_witness :
  ∃ payload bs h',
    unmask some_junk 1%positive 2%positive
      {[ 1%positive := [55; 250; 33; 61]; 2%positive := [127; 159; 77; 81; 88] ]}
    = (Ok payload, h')
    ∧ ({[ 1%positive := [55; 250; 33; 61]; 2%positive := [127; 159; 77; 81; 88] ]}
         : heap) !! payload = None
    ∧ h' !! payload = Some bs
    ∧ length bs = length [127; 159; 77; 81; 88]
    ∧ h' !! 2%positive = Some [127; 159; 77; 81; 88]
    ∧ h' !! 1%positive = Some [55; 250; 33; 61]
    ∧ ∀ l, l ≠ payload →
           h' !! l
           = ({[ 1%positive := [55; 250; 33; 61]; 2%positive := [127; 159; 77; 81; 88] ]}
                : heap) !! l.
Proof.
  apply (unmask_fresh_frame some_junk _ 1%positive 2%positive
           [55; 250; 33; 61] [127; 159; 77; 81; 88]); reflexivity.
Defined.

(** ** The connection *)

Lemma constructor_fields junk key h :
  let w := (constructor junk key (blank h)).2 in
  (constructor junk key (blank h)).1 = Ok tt
  ∧ this_closed w = Some false ∧ w_emitted w = []
  ∧ this_buffer w = Some (fresh (dom h))
  ∧ w_heap w = <[fresh (dom h) := []]> h.
Proof. done. Qed.

Lemma count_closes_app es es' :
  count_closes (es ++ es') = (count_closes es + count_closes es')%nat.
Proof. induction es as [|e es IH]; cbn; [done | rewrite IH; lia]. Qed.

Lemma on_close_when_closed had_error w :
  this_closed w = Some true → on_close had_error w = (Ok tt, w).
Proof. intros E. unfold on_close. erewrite bind_ok; [| reflexivity]. by rewrite E. Qed.

Lemma on_close_when_open had_error w :
  this_closed w ≠ Some true →
  on_close had_error w =
    (Ok tt, set_closed (Some true) (set_emitted (w_emitted w ++ [EvClose 1006]) w)).
Proof.
  intros E. unfold on_close. erewrite bind_ok; [| reflexivity].
  destruct (this_closed w) as [[]|]; [done | reflexivity..].
Qed.

Lemma deliver_when_closed sigs w :
  this_closed w = Some true →
  deliver sigs w = (Ok tt, w)
  ∧ flags sigs w = replicate (S (length sigs)) (Some true).
Proof.
  intros E. induction sigs as [|e sigs [IH1 IH2]]; cbn [deliver flags].
  - by rewrite E.
  - rewrite (bind_ok _ _ _ _ _ (on_close_when_closed e w E)).
    rewrite (on_close_when_closed e w E). cbn [snd].
    rewrite IH1, IH2, E. done.
Qed.

(** One run of the handler over a sequence of signals. *)
Lemma deliver_run sigs w :
  ∃ w' new k,
    deliver sigs w = (Ok tt, w')
    ∧ w_emitted w' = w_emitted w ++ new
    ∧ (new = [] ∨ new = [EvClose 1006])
    ∧ (this_closed w = Some true ∨ sigs = [] ↔ new = [])
    ∧ flags sigs w
      = replicate k (this_closed w) ++ replicate (S (length sigs) - k) (Some true).
Proof.
  destruct (decide (this_closed w = Some true)) as [Hc|Ho].
  - destruct (deliver_when_closed sigs w Hc) as [E1 E2].
    exists w, [], 0%nat. rewrite app_nil_r.
    split; [done|]. split; [done|]. split; [by left|]. split; [by intuition|].
    by rewrite E2, Nat.sub_0_r.
  - destruct sigs as [|e sigs].
    + exists w, [], 1%nat. rewrite app_nil_r.
      split; [done|]. split; [done|]. split; [by left|]. split; [by intuition|].
      done.
    + set (w1 := set_closed (Some true)
                   (set_emitted (w_emitted w ++ [EvClose 1006]) w)).
      assert (this_closed w1 = Some true) as Hc1 by done.
      destruct (deliver_when_closed sigs w1 Hc1) as [E1 E2].
      exists w1, [EvClose 1006], 1%nat.
      split.
      { cbn [deliver]. by rewrite (bind_ok _ _ _ _ _ (on_close_when_open e w Ho)). }
      split; [done|]. split; [by right|].
      split; [split; [intros [?|?]; done | done]|].
      cbn [flags]. rewrite (on_close_when_open e w Ho). cbn [snd].
      fold w1. rewrite E2. cbn [length]. rewrite Nat.sub_succ, Nat.sub_0_r. done.
Qed.

(** C7: whatever sequence of close signals the socket delivers to a
    connection, in whatever state: the handler never throws; during the
    whole sequence the connection emits either nothing or the one event
    [close 1006], and nothing if it was closed already; the successive
    values of its closed flag are its first value some number of times and
    then [true] to the end, so that the flag is set at most once and never
    goes back.  A connection as its constructor leaves it, with the flag
    [false] and nothing emitted, has emitted at most one close event after
    the sequence. *)
Theorem close_at_most_once sigs :
  (∀ w, ∃ w' new k,
      deliver sigs w = (Ok tt, w')
      ∧ w_emitted w' = w_emitted w ++ new
      ∧ (new = [] ∨ new = [EvClose 1006])
      ∧ (this_closed w = Some true ∨ sigs = [] ↔ new = [])
      ∧ (closes w' ≤ S (closes w))%nat
      ∧ flags sigs w
        = replicate k (this_closed w)
          ++ replicate (S (length sigs) - k) (Some true))
  ∧ (∀ junk key h, ∃ w',
        deliver sigs (constructor junk key (blank h)).2 = (Ok tt, w')
        ∧ (closes w' ≤ 1)%nat
        ∧ head (flags sigs (constructor junk key (blank h)).2) = Some (Some false)).
Proof.
  split.
  - intros w. destruct (deliver_run sigs w) as (w' & new & k & E & Hem & Hnew & Hiff & Hfl).
    exists w', new, k. repeat (split; [done|]). split; [|done].
    unfold closes. rewrite Hem, count_closes_app.
    destruct Hnew as [-> | ->]; cbn; lia.
  - intros junk key h.
    destruct (deliver_run sigs (constructor junk key (blank h)).2)
      as (w' & new & k & E & Hem & Hnew & _ & _).
    exists w'. split; [done|]. split.
    + unfold closes. rewrite Hem.
      destruct (constructor_fields junk key h) as (_ & _ & -> & _).
      destruct Hnew as [-> | ->]; cbn; lia.
    + by destruct sigs.
Qed.

(** What [send] does, whatever [_doSend] is. *)
Lemma send_unfold doSend obj w :
  send doSend obj w =
    match obj with
    | VBuffer b => doSend OP_BINARY b w
    | VString s =>
        let l := fresh (dom (w_heap w)) in
        doSend OP_TEXT l (set_heap (<[l := utf8_encode s]> (w_heap w)) w)
    | _ => (Throw (JsError "Cannot send object. Must be string or Buffer"), w)
    end.
Proof. destruct obj; reflexivity. Qed.

(** C8: for every input of [send] and every [_doSend]: a Buffer goes to
    the framing step as it is (the same Buffer, nothing else changed) with
    the opcode BINARY; a string goes to it with the opcode TEXT as a new
    Buffer holding its UTF-8 encoding; any other value makes [send] throw
    its own error at once, [_doSend] is not called and the state, socket
    included, is as before. *)
Theorem send_dispatch doSend w :
  (∀ b, send doSend (VBuffer b) w = doSend OP_BINARY b w)
  ∧ (∀ s, ∃ payload w',
        send doSend (VString s) w = doSend OP_TEXT payload w'
        ∧ w_heap w !! payload = None
        ∧ w_heap w' = <[payload := utf8_encode s]> (w_heap w)
        ∧ w_socket w' = w_socket w ∧ w_emitted w' = w_emitted w
        ∧ this_buffer w' = this_buffer w ∧ this_closed w' = this_closed w)
  ∧ (∀ obj, if is_payload obj then True
            else send doSend obj w
                 = (Throw (JsError "Cannot send object. Must be string or Buffer"), w)).
Proof.
  split; [intros b; by rewrite send_unfold|].
  split.
  - intros s. eexists _, _. split; [by rewrite send_unfold|].
    split; [apply fresh_lookup|]. done.
  - intros obj. destruct obj; done.
Qed.

(** With the modelled [_doSend], on an open connection, the frame of a
    Buffer of fewer than 126 bytes reaches the socket: the byte 130 (fin
    and BINARY), the length, the payload. *)
Lemma send_buffer_wire junk w b bs :
  this_closed w = Some false → w_heap w !! b = Some bs →
  Z.of_nat (length bs) < 126 →
  ∃ w', send (_doSend junk) (VBuffer b) w = (Ok tt, w')
        ∧ w_socket w' = w_socket w ++ [130; Z.of_nat (length bs)] ++ bs.
Proof.
  intros Hc Hb Hn. rewrite send_unfold. unfold _doSend.
  erewrite bind_ok; [| reflexivity]. rewrite Hc. cbn [js_not].
  erewrite bind_ok.
  2:{ unfold lift.
      by rewrite (encodeMessage_small junk _ OP_BINARY b bs Hb OP_BINARY_known Hn). }
  unfold socket_write. cbn [w_heap set_heap]. rewrite lookup_insert_eq.
  eexists. split; reflexivity.
Qed.

(** ... and the frame of a short string: the byte 129 (fin and TEXT), the
    length of its UTF-8 encoding, the encoding. *)
Lemma send_string_wire junk w s :
  this_closed w = Some false → Z.of_nat (length (utf8_encode s)) < 126 →
  ∃ w', send (_doSend junk) (VString s) w = (Ok tt, w')
        ∧ w_socket w'
          = w_socket w ++ [129; Z.of_nat (length (utf8_encode s))] ++ utf8_encode s.
Proof.
  intros Hc Hn. rewrite send_unfold. cbv zeta. unfold _doSend.
  erewrite bind_ok; [| reflexivity]. cbn [this_closed set_heap]. rewrite Hc.
  cbn [js_not].
  erewrite bind_ok.
  2:{ unfold lift. cbn [w_heap set_heap].
      by rewrite (encodeMessage_small junk _ OP_TEXT _ (utf8_encode s)
                    (lookup_insert_eq _ _ _) OP_TEXT_known Hn). }
  unfold socket_write. cbn [w_heap set_heap]. rewrite lookup_insert_eq.
  eexists. split; reflexivity.
Qed.

(** C6: on a connection whose closed flag is set, [send] with the modelled
    [_doSend] fails for every input and writes nothing to the socket; for
    every payload, Buffer or string, of any length, the failure is
    [ClosedConnection], which is neither the error of [send] for a value
    of another type nor an error of the encoder. *)
Theorem send_on_closed junk w obj :
  this_closed w = Some true →
  ∃ e w',
    send (_doSend junk) obj w = (Throw e, w')
    ∧ w_socket w' = w_socket w
    ∧ w_emitted w' = w_emitted w
    ∧ (if is_payload obj then e = ClosedConnection
       else e = JsError "Cannot send object. Must be string or Buffer").
Proof.
  intros Hc. rewrite send_unfold.
  destruct obj; try (eexists _, _; split; [reflexivity | done]).
  - cbv zeta. unfold _doSend. erewrite bind_ok; [| reflexivity].
    cbn [this_closed set_heap]. rewrite Hc. cbn [js_not].
    eexists _, _. split; [reflexivity | done].
  - unfold _doSend. erewrite bind_ok; [| reflexivity].
    rewrite Hc. cbn [js_not].
    eexists _, _. split; [reflexivity | done].
Qed.

Lemma send_on_closed_witness :
  this_closed closed_world = Some true
  ∧ ∃ e w',
      send (_doSend some_junk) (VBuffer 1%positive) closed_world = (Throw e, w')
      ∧ w_socket w' = w_socket closed_world
      ∧ w_emitted w' = w_emitted closed_world
      ∧ (if is_payload (VBuffer 1%positive) then e = ClosedConnection
         else e = JsError "Cannot send object. Must be string or Buffer").
Proof.
  split; [reflexivity|].
  apply (send_on_closed some_junk _ (VBuffer 1%positive)). reflexivity.
Defined.

(** ** The handshake response *)

Lemma constructor_socket junk key h :
  w_socket (constructor junk key (blank h)).2
  = utf8_encode (handshake_response (hashWebSocketKey (ToString key))).
Proof. reflexivity. Qed.

(** The checker accepts the response of RFC 6455, 4.2.2. *)
Lemma rfc_response_well_formed :
  Http.well_formed_101 (accept_of_spec sample_key)
    (Http.rfc_response (accept_of_spec sample_key)) = true
  ∧ Http.well_formed_101 (accept_of_spec sample_key)
      (str "HTTP/1.1 101 Web Socket Protocol Handshake" ++ [CR; LF] ++
       str "Upgrade: WebSocket" ++ [CR; LF] ++
       str "Connection: Upgrade" ++ [CR; LF] ++
       str "sec-websocket-accept: " ++ accept_of_spec sample_key ++ [CR; LF] ++
       [CR; LF]) = true.
Proof. by vm_compute. Qed.

Lemma utf8_encode_ascii pre rest :
  Forall (λ c, 0 <= c < 128) pre →
  utf8_encode (pre ++ rest) = pre ++ utf8_encode rest.
Proof.
  induction 1 as [|c pre Hc _ IH]; [done|].
  cbn [app utf8_encode]. rewrite IH.
  unfold is_high_surrogate, is_low_surrogate, utf8_cp.
  destruct (Z.leb_spec 55296 c); [lia|]. destruct (Z.leb_spec 56320 c); [lia|].
  destruct (Z.ltb_spec c 128); [done | lia].
Qed.

Lemma split_crlf_line cur line rest :
  Forall (λ c, c ≠ CR) line →
  Http.split_crlf cur (line ++ [CR; LF] ++ rest)
  = (rev cur ++ line) :: Http.split_crlf [] rest.
Proof.
  intros H. revert cur. induction H as [|c line Hc _ IH]; intros cur.
  - cbn. by rewrite app_nil_r.
  - cbn [app Http.split_crlf]. destruct (Z.eqb_spec c CR); [done|].
    rewrite IH. cbn [rev]. by rewrite <- app_assoc.
Qed.

Lemma handshake_response_lines accept :
  ∃ rest,
    Http.split_crlf [] (utf8_encode (handshake_response accept))
    = response_line1 :: response_line2 :: rest.
Proof.
  assert (handshake_response accept
          = (response_line1 ++ [CR; LF] ++ response_line2 ++ [CR; LF]) ++
            (str "      Connection: Upgrade " ++ [CR] ++ [LF] ++
             str "      sec-websocket-accept: " ++ accept ++ [LF] ++
             str "      " ++ [CR; LF; CR; LF])) as -> by reflexivity.
  rewrite utf8_encode_ascii
    by (eapply bool_decide_eq_true_1; vm_compute; reflexivity).
  rewrite <- !app_assoc.
  rewrite split_crlf_line by (eapply bool_decide_eq_true_1; vm_compute; reflexivity).
  rewrite split_crlf_line by (eapply bool_decide_eq_true_1; vm_compute; reflexivity).
  eexists. reflexivity.
Qed.

(** The second line of the response, a header line, starts with the six
    spaces of the source's indentation, and is no header line; and the
    accept value is followed by a bare line feed and six more spaces. *)
Lemma indented_header_line :
  Http.parse_header response_line2 = None
  ∧ Http.parse_header (str "Upgrade: WebSocket ")
    = Some (str "upgrade", str "WebSocket").
Proof. by vm_compute. Qed.

Lemma accept_line_end accept :
  ∃ before,
    handshake_response accept
    = before ++ str "sec-websocket-accept: " ++ accept
      ++ [LF; 32; 32; 32; 32; 32; 32; CR; LF; CR; LF].
Proof.
  exists (str "HTTP/1.1 101 Web Socket Protocol Handshake " ++ [CR] ++ [LF] ++
          str "      Upgrade: WebSocket " ++ [CR] ++ [LF] ++
          str "      Connection: Upgrade " ++ [CR] ++ [LF] ++ str "      ").
  reflexivity.
Qed.

(** C9 (fails on the code): whatever the key header of the request, the
    bytes the constructor writes to the socket are not a well-formed 101
    response with the three headers: the lines after the status line
    start with the indentation of the source, so that none of them is a
    header line, and the accept value is ended by a bare line feed and
    six spaces instead of CR LF. *)
Theorem handshake_response_malformed junk key h :
  Http.well_formed_101 (hashWebSocketKey (ToString key))
    (w_socket (constructor junk key (blank h)).2) = false.
Proof.
  rewrite constructor_socket.
  destruct (handshake_response_lines (hashWebSocketKey (ToString key))) as [rest E].
  unfold Http.well_formed_101. rewrite E.
  assert (Http.headers_ok (response_line2 :: rest) = false) as ->.
  { cbn [Http.headers_ok]. destruct indented_header_line as [-> _]. reflexivity. }
  by rewrite andb_false_r.
Qed.

(** * Further properties of the code *)

(** ** [unmask] *)

Lemma byte_xor m d :
  is_byte m → is_byte d → js_xor (Some m) (Some d) mod 256 = Z.lxor m d.
Proof.
  intros Hm Hd. unfold js_xor. cbn [ToInt32_opt].
  rewrite (ToInt32_small m), (ToInt32_small d) by (unfold is_byte in *; lia).
  rewrite mod256_land.
  rewrite <- (byte_land m) at 2 by done. rewrite <- (byte_land d) at 2 by done.
  apply Z.bits_inj'. intros n Hn.
  rewrite !Z.land_spec, !Z.lxor_spec, !Z.land_spec, testbit_255 by done.
  destruct (n <? 8), (Z.testbit m n), (Z.testbit d n); reflexivity.
Qed.

Lemma undefined_xor d : is_byte d → js_xor None (Some d) mod 256 = d.
Proof.
  intros Hd. unfold js_xor. cbn [ToInt32_opt].
  rewrite (ToInt32_small d) by (unfold is_byte in *; lia).
  rewrite Z.lxor_0_l. apply Z.mod_small. exact Hd.
Qed.

(** X1: [unmask] with a key of 4 bytes returns a Buffer as long as the
    data whose byte [i] is byte [i] of the data xor byte [i mod 4] of the
    key. *)
Theorem unmask_bytewise junk (h : heap) maskBytes data ms ds :
  h !! maskBytes = Some ms → h !! data = Some ds →
  length ms = 4%nat → bytes ms → bytes ds →
  ∃ payload bs h',
    unmask junk maskBytes data h = (Ok payload, h')
    ∧ h' !! payload = Some bs
    ∧ length bs = length ds
    ∧ ∀ i d, ds !! i = Some d →
        ∃ m, ms !! (i mod 4)%nat = Some m ∧ bs !! i = Some (Z.lxor m d).
Proof.
  intros Em Ed Hl Hm Hd.
  eexists _, _, _. split; [by apply unmask_spec|].
  split; [apply lookup_insert_eq|]. split; [apply length_xor_mask|].
  intros i d Hi.
  destruct (lookup_lt_is_Some_2 ms (i mod 4)%nat) as [m Hmi].
  { rewrite Hl. apply Nat.mod_upper_bound. lia. }
  exists m. split; [done|].
  rewrite (lookup_xor_mask _ _ _ _ Hi), Hmi. f_equal.
  apply byte_xor.
  - by eapply (Forall_lookup_1 _ _ _ _ Hm).
  - by eapply (Forall_lookup_1 _ _ _ _ Hd).
Qed.

Lemma unmask_bytewise_witness :
  two_buffers !! 1%positive = Some [55; 250; 33; 61]
  ∧ two_buffers !! 2%positive = Some [127; 159; 77; 81; 88]
  ∧ ∃ payload bs h',
      unmask some_junk 1%positive 2%positive two_buffers = (Ok payload, h')
      ∧ h' !! payload = Some bs
      ∧ length bs = length [127; 159; 77; 81; 88]
      ∧ ∀ i d, [127; 159; 77; 81; 88] !! i = Some d →
          ∃ m, [55; 250; 33; 61] !! (i mod 4)%nat = Some m
               ∧ bs !! i = Some (Z.lxor m d).
Proof.
  split; [reflexivity|]. split; [reflexivity|].
  apply (unmask_bytewise some_junk two_buffers 1%positive 2%positive
           [55; 250; 33; 61] [127; 159; 77; 81; 88]).
  - reflexivity.
  - reflexivity.
  - reflexivity.
  - unfold bytes, is_byte. repeat constructor; lia.
  - unfold bytes, is_byte. repeat constructor; lia.
Defined.

(** X2: what [unmask] returns, and the heap it leaves, do not depend on
    what the memory of the new Buffer held before: no stale byte reaches
    the result. *)
Theorem unmask_no_stale_memory junk junk' (h : heap) maskBytes data ms ds :
  h !! maskBytes = Some ms → h !! data = Some ds →
  unmask junk maskBytes data h = unmask junk' maskBytes data h.
Proof.
  intros Em Ed.
  by rewrite (unmask_spec junk h maskBytes data ms ds Em Ed),
             (unmask_spec junk' h maskBytes data ms ds Em Ed).
Qed.

Lemma unmask_no_stale_memory_witness :
  two_buffers !! 1%positive = Some [55; 250; 33; 61]
  ∧ two_buffers !! 2%positive = Some [127; 159; 77; 81; 88]
  ∧ unmask some_junk 1%positive 2%positive two_buffers
    = unmask (λ _, 0) 1%positive 2%positive two_buffers.
Proof.
  split; [reflexivity|]. split; [reflexivity|].
  apply (unmask_no_stale_memory some_junk (λ _, 0) two_buffers 1%positive 2%positive
           [55; 250; 33; 61] [127; 159; 77; 81; 88]); reflexivity.
Defined.

(** X3: where the key is too short to have a byte [i mod 4] (the read
    gives [undefined]), [unmask] copies byte [i] of the data unchanged;
    with an empty key it returns a copy of the data. *)
Theorem unmask_short_key junk (h : heap) maskBytes data ms ds :
  h !! maskBytes = Some ms → h !! data = Some ds → bytes ds →
  ∃ payload bs h',
    unmask junk maskBytes data h = (Ok payload, h')
    ∧ h' !! payload = Some bs
    ∧ (∀ i d, ds !! i = Some d → (length ms ≤ i mod 4)%nat → bs !! i = Some d)
    ∧ (ms = [] → bs = ds).
Proof.
  intros Em Ed Hd.
  assert (∀ i d, ds !! i = Some d → (length ms ≤ i mod 4)%nat →
                 xor_mask ms ds !! i = Some d) as Hcopy.
  { intros i d Hi Hlen. rewrite (lookup_xor_mask _ _ _ _ Hi).
    rewrite (proj2 (lookup_ge_None ms (i mod 4)%nat) Hlen). f_equal.
    apply undefined_xor. by eapply (Forall_lookup_1 _ _ _ _ Hd). }
  eexists _, _, _. split; [by apply unmask_spec|].
  split; [apply lookup_insert_eq|]. split; [exact Hcopy|].
  intros ->. apply list_eq. intros i.
  destruct (ds !! i) as [d|] eqn:E.
  - apply Hcopy; [done | cbn; lia].
  - apply lookup_ge_None. rewrite length_xor_mask. by apply lookup_ge_None.
Qed.

Lemma unmask_short_key_witness :
  ({[ 1%positive := []; 2%positive := [127; 159; 77] ]} : heap) !! 1%positive
  = Some []
  ∧ ∃ payload bs h',
      unmask some_junk 1%positive 2%positive
        {[ 1%positive := []; 2%positive := [127; 159; 77] ]} = (Ok payload, h')
      ∧ h' !! payload = Some bs
      ∧ (∀ i d, [127; 159; 77] !! i = Some d →
                (length ([] : list Z) ≤ i mod 4)%nat → bs !! i = Some d)
      ∧ (([] : list Z) = [] → bs = [127; 159; 77]).
Proof.
  split; [reflexivity|].
  apply (unmask_short_key some_junk _ 1%positive 2%positive [] [127; 159; 77]).
  - reflexivity.
  - reflexivity.
  - unfold bytes, is_byte. repeat constructor; lia.
Defined.

Lemma xor_commute (m1 m2 : option Z) d :
  js_xor m2 (Some (js_xor m1 (Some d) mod 256)) mod 256
  = js_xor m1 (Some (js_xor m2 (Some d) mod 256)) mod 256.
Proof.
  unfold js_xor at 1 3. cbn [ToInt32_opt].
  rewrite !(ToInt32_small (_ mod 256)).
  2,3: match goal with |- context [?x mod 256] =>
         pose proof (mod256_byte x) as Hb; unfold is_byte in Hb; lia end.
  unfold js_xor. cbn [ToInt32_opt]. rewrite !mod256_land.
  apply Z.bits_inj'. intros n Hn.
  rewrite !Z.land_spec, !Z.lxor_spec, !Z.land_spec, !Z.lxor_spec, testbit_255 by done.
  destruct (n <? 8), (Z.testbit (ToInt32_opt m1) n), (Z.testbit (ToInt32_opt m2) n),
    (Z.testbit (ToInt32 d) n); reflexivity.
Qed.

Lemma xor_mask_commute k1 k2 data :
  xor_mask k2 (xor_mask k1 data) = xor_mask k1 (xor_mask k2 data).
Proof.
  apply list_eq. intros i.
  destruct (data !! i) as [d|] eqn:E.
  - rewrite (lookup_xor_mask _ _ _ _ (lookup_xor_mask k1 _ _ _ E)).
    rewrite (lookup_xor_mask _ _ _ _ (lookup_xor_mask k2 _ _ _ E)).
    f_equal. apply xor_commute.
  - rewrite (proj2 (lookup_ge_None _ _)), (proj2 (lookup_ge_None _ _)); [done|..];
      rewrite !length_xor_mask; by apply lookup_ge_None.
Qed.

(** X4: unmasking with two keys one after the other gives the same bytes
    in either order. *)
Theorem unmask_keys_commute junk (h : heap) key1 key2 data ks1 ks2 ds :
  h !! key1 = Some ks1 → h !! key2 = Some ks2 → h !! data = Some ds →
  ∃ p1 h1 p2 h2 q1 g1 q2 g2 bs,
    unmask junk key1 data h = (Ok p1, h1)
    ∧ unmask junk key2 p1 h1 = (Ok p2, h2)
    ∧ unmask junk key2 data h = (Ok q1, g1)
    ∧ unmask junk key1 q1 g1 = (Ok q2, g2)
    ∧ h2 !! p2 = Some bs ∧ g2 !! q2 = Some bs.
Proof.
  intros E1 E2 Ed.
  assert (key1 ≠ fresh (dom h)) as N1 by (by eapply fresh_ne).
  assert (key2 ≠ fresh (dom h)) as N2 by (by eapply fresh_ne).
  eexists _, _, _, _, _, _, _, _, _.
  split; [by apply unmask_spec|].
  split; [apply unmask_spec;
          [by rewrite lookup_insert_ne | apply lookup_insert_eq]|].
  split; [by apply unmask_spec|].
  split; [apply unmask_spec;
          [by rewrite lookup_insert_ne | apply lookup_insert_eq]|].
  split; [apply lookup_insert_eq|].
  rewrite lookup_insert_eq. f_equal. apply xor_mask_commute.
Qed.

Lemma unmask_keys_commute_witness :
  three_buffers !! 1%positive = Some [55; 250; 33; 61]
  ∧ three_buffers !! 3%positive = Some [1; 2; 3; 4]
  ∧ three_buffers !! 2%positive = Some [127; 159; 77; 81; 88]
  ∧ ∃ p1 h1 p2 h2 q1 g1 q2 g2 bs,
      unmask some_junk 1%positive 2%positive three_buffers = (Ok p1, h1)
      ∧ unmask some_junk 3%positive p1 h1 = (Ok p2, h2)
      ∧ unmask some_junk 3%positive 2%positive three_buffers = (Ok q1, g1)
      ∧ unmask some_junk 1%positive q1 g1 = (Ok q2, g2)
      ∧ h2 !! p2 = Some bs ∧ g2 !! q2 = Some bs.
Proof.
  split; [reflexivity|]. split; [reflexivity|]. split; [reflexivity|].
  apply (unmask_keys_commute some_junk three_buffers 1%positive 3%positive 2%positive
           [55; 250; 33; 61] [1; 2; 3; 4] [127; 159; 77; 81; 88]); reflexivity.
Defined.

(** ** [encodeMessage] *)

Section EncodeMore.

Variable junk : nat → Z.

Lemma js_or_128_low op : 0 <= op < 128 → js_or 128 op = 128 + op.
Proof.
  intros Hop.
  assert (Forall (λ op, js_or 128 op = 128 + op) (seqZ 0 128)) as HF.
  { eapply bool_decide_eq_true_1. vm_compute. reflexivity. }
  apply (proj1 (Forall_forall _ _) HF). apply elem_of_seqZ. lia.
Qed.

Lemma encodeMessage_any_opcode (h : heap) op payload ps :
  h !! payload = Some ps → 0 <= op < 128 → Z.of_nat (length ps) < 65536 →
  encodeMessage junk op payload h =
    (Ok (fresh (dom h)), <[fresh (dom h) := frame_of op ps]> h).
Proof.
  intros Ep Hop Hlen. unfold encodeMessage, frame_of. cbv zeta.
  rewrite (js_or_128_low op Hop).
  assert (is_byte (128 + op)) as Hb1 by (unfold is_byte; lia).
  rewrite (bind_ok _ _ _ _ _ (Buffer_length_ok _ _ _ Ep)).
  change (Z.shiftl 1 16) with 65536.
  set (l := fresh (dom h)).
  assert (payload ≠ l) as Hne by (by eapply fresh_ne).
  destruct (Z.ltb_spec (Z.of_nat (length ps)) 126).
  - rewrite (bind_ok _ _ _ _ _ (Buffer_length_ok _ _ _ Ep)).
    erewrite bind_ok; [| reflexivity]. fold l.
    set (st := stale junk _).
    assert (length st = S (S (length ps))) as Hst
      by (unfold st; rewrite length_stale; lia).
    erewrite bind_ok.
    2:{ apply writeUInt8_ok; [apply lookup_insert_eq | done | lia | lia]. }
    rewrite insert_insert_eq, js_or_0 by lia.
    erewrite bind_ok.
    2:{ apply writeUInt8_ok;
          [apply lookup_insert_eq | unfold is_byte; lia | lia
          | rewrite length_insert; lia]. }
    rewrite insert_insert_eq.
    erewrite Buffer_copy_seq;
      [| rewrite lookup_insert_ne by done; exact Ep | apply lookup_insert_eq | lia
       | rewrite !length_insert; lia].
    rewrite insert_insert_eq.
    unfold mret, ST_ret. f_equal. f_equal.
    change (Z.to_nat 2) with 2%nat. change (Z.to_nat 1) with 1%nat.
    change (Z.to_nat 0) with 0%nat.
    rewrite take2_header by lia. done.
  - destruct (Z.ltb_spec (Z.of_nat (length ps)) 65536); [|lia].
    rewrite (bind_ok _ _ _ _ _ (Buffer_length_ok _ _ _ Ep)).
    erewrite bind_ok; [| reflexivity]. fold l.
    set (st := stale junk _).
    assert (length st = S (S (S (S (length ps))))) as Hst
      by (unfold st; rewrite length_stale; lia).
    erewrite bind_ok.
    2:{ apply writeUInt8_ok; [apply lookup_insert_eq | done | lia | lia]. }
    rewrite insert_insert_eq, js_or_0 by lia.
    erewrite bind_ok.
    2:{ apply writeUInt8_ok;
          [apply lookup_insert_eq | unfold is_byte; lia | lia
          | rewrite length_insert; lia]. }
    rewrite insert_insert_eq.
    erewrite bind_ok.
    2:{ apply writeUInt16BE_ok;
          [apply lookup_insert_eq | lia | lia | rewrite !length_insert; lia]. }
    rewrite insert_insert_eq.
    erewrite Buffer_copy_seq;
      [| rewrite lookup_insert_ne by done; exact Ep | apply lookup_insert_eq | lia
       | rewrite !length_insert; lia].
    rewrite insert_insert_eq.
    unfold mret, ST_ret. f_equal. f_equal.
    change (Z.to_nat 4) with 4%nat. change (Z.to_nat 2) with 2%nat.
    change (Z.to_nat 1) with 1%nat. change (Z.to_nat 0) with 0%nat.
    rewrite take4_header by lia. done.
Qed.

End EncodeMore.

Lemma js_or_128_high op : 256 <= op < 2^31 → 255 < js_or 128 op.
Proof.
  intros Hop. unfold js_or. rewrite (ToInt32_small 128), (ToInt32_small op) by lia.
  assert (0 <= Z.lor 128 op) as Hnn by (apply Z.lor_nonneg; lia).
  assert (Z.testbit (Z.lor 128 op) (Z.log2 op) = true) as Hbit.
  { rewrite Z.lor_spec, (Z.bit_log2 op) by lia. apply orb_true_r. }
  destruct (Z.le_gt_cases 256 (Z.lor 128 op)) as [?|Hlt]; [lia|].
  assert (8 <= Z.log2 op) as Hlog by (apply (Z.log2_le_mono 256 op); lia).
  rewrite Z.bits_above_log2 in Hbit; [done | done |].
  destruct (Z.eq_dec (Z.lor 128 op) 0) as [E0|N0].
  - rewrite E0. cbn. lia.
  - apply Z.le_lt_trans with 7; [|lia].
    apply (Z.log2_le_mono _ 255). lia.
Qed.

(** X5: [encodeMessage] does not check its opcode: for every opcode from 0
    to 127, one of [OP_CODES] or not, and every payload of fewer than 65536
    bytes it returns a Buffer holding the byte 128 + opcode (fin bit set,
    low seven bits the opcode), the length with the mask bit clear (inline
    below 126, else 126 and the length in two bytes, most significant
    first) and the payload. *)
Theorem encodeMessage_unchecked_opcode junk (h : heap) op payload ps :
  h !! payload = Some ps → 0 <= op < 128 → Z.of_nat (length ps) < 65536 →
  ∃ buf frame h',
    encodeMessage junk op payload h = (Ok buf, h')
    ∧ h' !! buf = Some frame
    ∧ (Z.of_nat (length ps) < 126 →
       frame = [128 + op; Z.of_nat (length ps)] ++ ps)
    ∧ (126 <= Z.of_nat (length ps) →
       frame = [128 + op; 126; Z.of_nat (length ps) / 256;
                Z.of_nat (length ps) mod 256] ++ ps)
    ∧ Z.land (128 + op) 127 = op
    ∧ Z.testbit (128 + op) 7 = true
    ∧ ∃ b2, frame !! 1%nat = Some b2 ∧ Z.testbit b2 7 = false.
Proof.
  intros Ep Hop Hn.
  assert (Forall (λ op, Z.land (128 + op) 127 = op ∧ Z.testbit (128 + op) 7 = true
                        ∧ Z.testbit op 7 = false) (seqZ 0 128)) as HF.
  { eapply bool_decide_eq_true_1. vm_compute. reflexivity. }
  pose proof (proj1 (Forall_forall _ _) HF) as Hbits. clear HF.
  destruct (Hbits op ltac:(apply elem_of_seqZ; lia)) as (Hlow & Hfin & _).
  eexists _, _, _. split; [by apply encodeMessage_any_opcode|].
  split; [apply lookup_insert_eq|]. unfold frame_of.
  split; [|split; [|split; [done|split; [done|]]]].
  - intros H. destruct (Z.ltb_spec (Z.of_nat (length ps)) 126); [done | lia].
  - intros H. destruct (Z.ltb_spec (Z.of_nat (length ps)) 126); [lia | done].
  - destruct (Z.ltb_spec (Z.of_nat (length ps)) 126).
    + eexists. split; [reflexivity|].
      by destruct (Hbits (Z.of_nat (length ps)) ltac:(apply elem_of_seqZ; lia))
        as (_ & _ & ?).
    + eexists. split; [reflexivity|]. reflexivity.
Qed.

Lemma encodeMessage_unchecked_opcode_witness :
  one_buffer [104; 105] !! 1%positive = Some [104; 105]
  ∧ 0 <= 3 < 128
  ∧ Z.of_nat (length [104; 105]) < 65536
  ∧ ∃ buf frame h',
      encodeMessage some_junk 3 1%positive (one_buffer [104; 105]) = (Ok buf, h')
      ∧ h' !! buf = Some frame
      ∧ (Z.of_nat (length [104; 105]) < 126 →
         frame = [128 + 3; Z.of_nat (length [104; 105])] ++ [104; 105])
      ∧ (126 <= Z.of_nat (length [104; 105]) →
         frame = [128 + 3; 126; Z.of_nat (length [104; 105]) / 256;
                  Z.of_nat (length [104; 105]) mod 256] ++ [104; 105])
      ∧ Z.land (128 + 3) 127 = 3
      ∧ Z.testbit (128 + 3) 7 = true
      ∧ ∃ b2, frame !! 1%nat = Some b2 ∧ Z.testbit b2 7 = false.
Proof.
  assert (0 <= 3 < 128) as H2 by lia.
  assert (Z.of_nat (length [104; 105]) < 65536) as H3 by (cbn; lia).
  split; [reflexivity|]. split; [exact H2|]. split; [exact H3|].
  exact (encodeMessage_unchecked_opcode some_junk (one_buffer [104; 105]) 3
           1%positive [104; 105] eq_refl H2 H3).
Defined.

(** X6: for a payload of fewer than 65536 bytes [encodeMessage] returns a
    Buffer that was not allocated before, 2 bytes longer than the payload
    when that has fewer than 126 bytes and 4 bytes longer otherwise, and
    leaves the payload and every other Buffer as they were. *)
Theorem encodeMessage_fresh_frame junk (h : heap) op payload ps :
  h !! payload = Some ps → 0 <= op < 128 → Z.of_nat (length ps) < 65536 →
  ∃ buf frame h',
    encodeMessage junk op payload h = (Ok buf, h')
    ∧ h !! buf = None
    ∧ h' !! buf = Some frame
    ∧ length frame
      = (length ps + (if (Z.of_nat (length ps) <? 126)%Z then 2 else 4))%nat
    ∧ drop (if Z.of_nat (length ps) <? 126 then 2%nat else 4%nat) frame = ps
    ∧ h' !! payload = Some ps
    ∧ ∀ l, l ≠ buf → h' !! l = h !! l.
Proof.
  intros Ep Hop Hn.
  eexists _, _, _. split; [by apply encodeMessage_any_opcode|].
  split; [apply fresh_lookup|]. split; [apply lookup_insert_eq|].
  unfold frame_of.
  split; [|split; [|split]].
  - destruct (Z.of_nat (length ps) <? 126); rewrite length_app; cbn; lia.
  - by destruct (Z.of_nat (length ps) <? 126).
  - rewrite lookup_insert_ne; [done|]. symmetry. by eapply fresh_ne.
  - intros l Hl. by rewrite lookup_insert_ne.
Qed.

Lemma encodeMessage_fresh_frame_witness :
  one_buffer [104; 105] !! 1%positive = Some [104; 105]
  ∧ ∃ buf frame h',
      encodeMessage some_junk OP_TEXT 1%positive (one_buffer [104; 105]) = (Ok buf, h')
      ∧ one_buffer [104; 105] !! buf = None
      ∧ h' !! buf = Some frame
      ∧ length frame
        = (length [104; 105]
           + (if (Z.of_nat (length [104; 105]) <? 126)%Z then 2 else 4))%nat
      ∧ drop (if Z.of_nat (length [104; 105]) <? 126 then 2%nat else 4%nat) frame
        = [104; 105]
      ∧ h' !! 1%positive = Some [104; 105]
      ∧ ∀ l, l ≠ buf → h' !! l = one_buffer [104; 105] !! l.
Proof.
  split; [reflexivity|].
  apply (encodeMessage_fresh_frame some_junk (one_buffer [104; 105]) OP_TEXT
           1%positive [104; 105]).
  - reflexivity.
  - unfold OP_TEXT. lia.
  - cbn. lia.
Defined.

(** X7: for a payload of fewer than 65536 bytes, what [encodeMessage]
    returns and the heap it leaves do not depend on what the memory of the
    new Buffer held before: no stale byte reaches the frame. *)
Theorem encodeMessage_no_stale_memory junk junk' (h : heap) op payload ps :
  h !! payload = Some ps → 0 <= op < 128 → Z.of_nat (length ps) < 65536 →
  encodeMessage junk op payload h = encodeMessage junk' op payload h.
Proof.
  intros Ep Hop Hn.
  by rewrite (encodeMessage_any_opcode junk h op payload ps Ep Hop Hn),
             (encodeMessage_any_opcode junk' h op payload ps Ep Hop Hn).
Qed.

Lemma encodeMessage_no_stale_memory_witness :
  one_buffer [104; 105] !! 1%positive = Some [104; 105]
  ∧ encodeMessage some_junk OP_BINARY 1%positive (one_buffer [104; 105])
    = encodeMessage (λ _, 0) OP_BINARY 1%positive (one_buffer [104; 105]).
Proof.
  split; [reflexivity|].
  apply (encodeMessage_no_stale_memory some_junk (λ _, 0) (one_buffer [104; 105])
           OP_BINARY 1%positive [104; 105]).
  - reflexivity.
  - unfold OP_BINARY. lia.
  - cbn. lia.
Defined.

Lemma frame_of_inj op1 op2 ps1 ps2 :
  Z.of_nat (length ps1) < 65536 → Z.of_nat (length ps2) < 65536 →
  frame_of op1 ps1 = frame_of op2 ps2 → op1 = op2 ∧ ps1 = ps2.
Proof.
  intros H1 H2. unfold frame_of.
  destruct (Z.ltb_spec (Z.of_nat (length ps1)) 126),
           (Z.ltb_spec (Z.of_nat (length ps2)) 126); cbn [app]; intros E.
  - injection E as E1 E2 E3. split; [lia | done].
  - injection E as E1 E2 E3. lia.
  - injection E as E1 E2 E3. lia.
  - injection E as E1 E2 E3 E4. split; [lia | done].
Qed.

(** X8: two calls of [encodeMessage] that return the same bytes were
    given the same opcode and the same payload bytes (opcodes from 0 to
    127, payloads of fewer than 65536 bytes): a frame stands for one
    message only. *)
Theorem encodeMessage_injective junk (h1 h2 : heap) op1 op2 p1 p2 ps1 ps2 :
  h1 !! p1 = Some ps1 → h2 !! p2 = Some ps2 →
  0 <= op1 < 128 → 0 <= op2 < 128 →
  Z.of_nat (length ps1) < 65536 → Z.of_nat (length ps2) < 65536 →
  ∃ b1 g1 b2 g2,
    encodeMessage junk op1 p1 h1 = (Ok b1, g1)
    ∧ encodeMessage junk op2 p2 h2 = (Ok b2, g2)
    ∧ (g1 !! b1 = g2 !! b2 → op1 = op2 ∧ ps1 = ps2).
Proof.
  intros E1 E2 Ho1 Ho2 Hn1 Hn2.
  eexists _, _, _, _.
  split; [by apply encodeMessage_any_opcode|].
  split; [by apply encodeMessage_any_opcode|].
  rewrite !lookup_insert_eq. intros [= E]. by apply frame_of_inj.
Qed.

Lemma encodeMessage_injective_witness :
  one_buffer [104; 105] !! 1%positive = Some [104; 105]
  ∧ two_buffers !! 2%positive = Some [127; 159; 77; 81; 88]
  ∧ ∃ b1 g1 b2 g2,
      encodeMessage some_junk OP_TEXT 1%positive (one_buffer [104; 105]) = (Ok b1, g1)
      ∧ encodeMessage some_junk OP_BINARY 2%positive two_buffers = (Ok b2, g2)
      ∧ (g1 !! b1 = g2 !! b2
         → OP_TEXT = OP_BINARY ∧ [104; 105] = [127; 159; 77; 81; 88]).
Proof.
  split; [reflexivity|]. split; [reflexivity|].
  apply (encodeMessage_injective some_junk (one_buffer [104; 105])
           two_buffers OP_TEXT OP_BINARY 1%positive 2%positive
           [104; 105] [127; 159; 77; 81; 88]);
    first [reflexivity | unfold OP_TEXT, OP_BINARY; lia | cbn; lia].
Defined.

(** X9: an opcode from 256 up makes [encodeMessage] throw at its first
    write, whatever the payload: the byte 128 | opcode does not fit in
    [writeUInt8].  The Buffers that existed before are unchanged. *)
Theorem encodeMessage_opcode_too_large junk (h : heap) op payload ps :
  h !! payload = Some ps → 256 <= op < 2^31 →
  ∃ h', encodeMessage junk op payload h = (Throw ValueOutOfBounds, h')
        ∧ ∀ l bs, h !! l = Some bs → h' !! l = Some bs.
Proof.
  intros Ep Hop. pose proof (js_or_128_high op Hop) as Hb1.
  unfold encodeMessage. cbv zeta.
  rewrite (bind_ok _ _ _ _ _ (Buffer_length_ok _ _ _ Ep)).
  assert (∀ l bs, h !! l = Some bs →
            ∀ st, <[fresh (dom h) := st]> h !! l = Some bs) as Hkeep.
  { intros l bs Hl st. rewrite lookup_insert_ne; [done|]. symmetry. by eapply fresh_ne. }
  destruct (_ <? 126); [|destruct (_ <? _)];
    rewrite (bind_ok _ _ _ _ _ (Buffer_length_ok _ _ _ Ep));
    (erewrite bind_ok; [| reflexivity]);
    (erewrite bind_throw;
      [| eapply writeUInt8_throws; [apply lookup_insert_eq | exact Hb1]]);
    (eexists; split; [reflexivity|]); intros l bs Hl; by apply Hkeep.
Qed.

Lemma encodeMessage_opcode_too_large_witness :
  one_buffer [104; 105] !! 1%positive = Some [104; 105]
  ∧ 256 <= 257 < 2^31
  ∧ ∃ h', encodeMessage some_junk 257 1%positive (one_buffer [104; 105])
          = (Throw ValueOutOfBounds, h')
          ∧ ∀ l bs, one_buffer [104; 105] !! l = Some bs → h' !! l = Some bs.
Proof.
  assert (256 <= 257 < 2^31) as H2 by lia.
  split; [reflexivity|]. split; [exact H2|].
  exact (encodeMessage_opcode_too_large some_junk (one_buffer [104; 105]) 257
           1%positive [104; 105] eq_refl H2).
Defined.

(** ** [hashWebSocketKey] *)

Lemma length_be_bytes n z : length (SHA1.be_bytes n z) = n.
Proof. induction n as [|n IH]; cbn; [done | by rewrite IH]. Qed.

Lemma bytes_be_bytes n z : bytes (SHA1.be_bytes n z).
Proof.
  induction n as [|n IH]; cbn [SHA1.be_bytes]; constructor; [|done].
  rewrite <- mod256_land. apply mod256_byte.
Qed.

Lemma digest_shape msg : length (SHA1.digest msg) = 20%nat ∧ bytes (SHA1.digest msg).
Proof.
  unfold SHA1.digest.
  destruct (SHA1.blocks _ _ _) as [[[[h0 h1] h2] h3] h4].
  split.
  - rewrite !length_app, !length_be_bytes. done.
  - unfold bytes. rewrite !Forall_app. repeat split; apply bytes_be_bytes.
Qed.

Lemma digit_in_alphabet n : 0 <= n < 64 → Base64.digit n ∈ Base64.alphabet.
Proof.
  intros Hn.
  assert (Forall (λ n, Base64.digit n ∈ Base64.alphabet) (seqZ 0 64)) as HF.
  { eapply bool_decide_eq_true_1. vm_compute. reflexivity. }
  apply (proj1 (Forall_forall _ _) HF). apply elem_of_seqZ. lia.
Qed.

(** The four 6-bit groups base64 cuts out of bytes. *)
Lemma sextets a b :
  is_byte a → is_byte b →
  0 <= Z.shiftr a 2 < 64
  ∧ 0 <= Z.lor (Z.shiftl (Z.land a 3) 4) (Z.shiftr b 4) < 64
  ∧ 0 <= Z.lor (Z.shiftl (Z.land a 15) 2) (Z.shiftr b 6) < 64
  ∧ 0 <= Z.land a 63 < 64
  ∧ 0 <= Z.shiftl (Z.land a 15) 2 < 64.
Proof.
  intros Ha Hb.
  assert (Forall (λ a, Forall (λ b,
            0 <= Z.shiftr a 2 < 64
            ∧ 0 <= Z.lor (Z.shiftl (Z.land a 3) 4) (Z.shiftr b 4) < 64
            ∧ 0 <= Z.lor (Z.shiftl (Z.land a 15) 2) (Z.shiftr b 6) < 64
            ∧ 0 <= Z.land a 63 < 64
            ∧ 0 <= Z.shiftl (Z.land a 15) 2 < 64) (seqZ 0 256)) (seqZ 0 256)) as HF.
  { eapply bool_decide_eq_true_1. vm_compute. reflexivity. }
  unfold is_byte in *.
  apply (proj1 (Forall_forall _ _) (proj1 (Forall_forall _ _) HF a ltac:(apply elem_of_seqZ; lia))).
  apply elem_of_seqZ. lia.
Qed.

Lemma alphabet_ascii c : c ∈ Base64.alphabet → 0 <= c < 128 ∧ c ≠ Base64.pad_char.
Proof.
  revert c. apply Forall_forall.
  eapply bool_decide_eq_true_1. vm_compute. reflexivity.
Qed.

(** The base64 of 20 bytes: 27 characters of the alphabet and one
    padding character. *)
Lemma encode_20 bs :
  length bs = 20%nat → bytes bs →
  ∃ body, Base64.encode bs = body ++ [Base64.pad_char]
          ∧ length body = 27%nat
          ∧ Forall (λ c, c ∈ Base64.alphabet) body.
Proof.
  intros Hl Hb.
  do 20 (destruct bs as [|? bs]; [cbn in Hl; lia|]).
  destruct bs; [|cbn in Hl; lia].
  unfold bytes in Hb.
  repeat match goal with
         | H : Forall _ (_ :: _) |- _ => apply Forall_cons in H as [? H]
         end.
  cbn [Base64.encode].
  eexists [_; _; _; _; _; _; _; _; _; _; _; _; _; _; _; _; _; _; _; _; _; _; _; _;
           _; _; _].
  split; [reflexivity|]. split; [reflexivity|].
  repeat (apply Forall_cons; split; [apply digit_in_alphabet|]);
    [..| by apply Forall_nil];
    match goal with
    | |- 0 <= Z.shiftr ?a 2 < 64 => apply (sextets a a); assumption
    | |- 0 <= Z.lor (Z.shiftl (Z.land ?a 3) 4) (Z.shiftr ?b 4) < 64 =>
        apply (sextets a b); assumption
    | |- 0 <= Z.lor (Z.shiftl (Z.land ?a 15) 2) (Z.shiftr ?b 6) < 64 =>
        apply (sextets a b); assumption
    | |- 0 <= Z.land ?a 63 < 64 => apply (sextets a a); assumption
    | |- 0 <= Z.shiftl (Z.land ?a 15) 2 < 64 => apply (sextets a a); assumption
    end.
Qed.

(** X10: whatever the key, the accept value has 28 characters: 27
    characters of the base64 alphabet and the padding character "=". *)
Theorem hashWebSocketKey_shape key :
  ∃ body,
    hashWebSocketKey key = body ++ [61]
    ∧ length body = 27%nat
    ∧ Forall (λ c, c ∈ Base64.alphabet) body
    ∧ length (hashWebSocketKey key) = 28%nat.
Proof.
  unfold hashWebSocketKey.
  destruct (digest_shape (ascii_encode (key ++ KEY_SUFFIX))) as [Hl Hb].
  destruct (encode_20 _ Hl Hb) as (body & E & Hlb & Hal).
  exists body. rewrite E. repeat split; [done..|].
  rewrite length_app, Hlb. done.
Qed.

(** X11: only the low byte of each code unit of the key enters the hash:
    two keys whose code units agree modulo 256 get the same accept
    value. *)
Theorem hashWebSocketKey_low_bytes key1 key2 :
  (λ c, c mod 256) <$> key1 = (λ c, c mod 256) <$> key2 →
  hashWebSocketKey key1 = hashWebSocketKey key2.
Proof.
  intros E. unfold hashWebSocketKey, ascii_encode.
  assert (∀ k : list Z,
            (λ c, Z.land c 255) <$> k = (λ c : Z, c mod 256) <$> k) as Hk.
  { intros k. apply list_fmap_ext. intros _ c _. by rewrite mod256_land. }
  by rewrite !fmap_app, (Hk key1), (Hk key2), E.
Qed.

Lemma hashWebSocketKey_low_bytes_witness :
  (λ c, c mod 256) <$> [65; 66] = (λ c, c mod 256) <$> [321; 8770]
  ∧ hashWebSocketKey [65; 66] = hashWebSocketKey [321; 8770].
Proof.
  assert ((λ c, c mod 256) <$> [65; 66] = (λ c, c mod 256) <$> [321; 8770]) as H
    by reflexivity.
  split; [exact H|].
  exact (hashWebSocketKey_low_bytes [65; 66] [321; 8770] H).
Defined.

(** ** The constructor *)

Lemma hashWebSocketKey_ascii key : Forall (λ c, 0 <= c < 128) (hashWebSocketKey key).
Proof.
  unfold hashWebSocketKey.
  destruct (digest_shape (ascii_encode (key ++ KEY_SUFFIX))) as [Hl Hb].
  destruct (encode_20 _ Hl Hb) as (body & -> & _ & Hal).
  apply Forall_app. split.
  - eapply Forall_impl; [exact Hal|]. intros c Hc. by apply alphabet_ascii.
  - apply Forall_singleton. unfold Base64.pad_char. lia.
Qed.

Lemma hashWebSocketKey_length key : length (hashWebSocketKey key) = 28%nat.
Proof.
  unfold hashWebSocketKey.
  destruct (digest_shape (ascii_encode (key ++ KEY_SUFFIX))) as [Hl Hb].
  destruct (encode_20 _ Hl Hb) as (body & -> & Hlb & _).
  rewrite length_app, Hlb. done.
Qed.

Lemma constructor_run junk key w :
  constructor junk key w =
    (Ok tt,
     set_closed (Some false)
       (set_buffer (Some (fresh (dom (w_heap w))))
          (set_heap (<[fresh (dom (w_heap w)) := []]> (w_heap w))
             (set_socket
                (w_socket w
                 ++ utf8_encode
                      (handshake_response (hashWebSocketKey (ToString key))))
                w)))).
Proof. reflexivity. Qed.

Lemma handshake_response_ascii accept :
  Forall (λ c, 0 <= c < 128) accept →
  utf8_encode (handshake_response accept) = handshake_response accept.
Proof.
  intros Ha.
  rewrite <- (app_nil_r (handshake_response accept)) at 1.
  rewrite utf8_encode_ascii; [apply app_nil_r|].
  unfold handshake_response. rewrite !Forall_app.
  repeat split; try exact Ha;
    eapply bool_decide_eq_true_1; vm_compute; reflexivity.
Qed.

(** X12: the constructor never refuses an upgrade: for every key header,
    a missing one too (the accept value is then computed from the text
    "undefined"), and from every state, it returns normally, appends the
    response to what the socket was sent before, sets the closed flag to
    false, emits nothing, and gives the connection a new empty Buffer,
    leaving the Buffers that existed unchanged. *)
Theorem constructor_always_accepts junk key w :
  ∃ w' b,
    constructor junk key w = (Ok tt, w')
    ∧ w_socket w'
      = w_socket w
        ++ utf8_encode
             (handshake_response
                (hashWebSocketKey
                   (match key with Some k => k | None => str "undefined" end)))
    ∧ this_closed w' = Some false
    ∧ w_emitted w' = w_emitted w
    ∧ this_buffer w' = Some b
    ∧ w_heap w !! b = None
    ∧ w_heap w' !! b = Some []
    ∧ ∀ l, l ≠ b → w_heap w' !! l = w_heap w !! l.
Proof.
  eexists _, (fresh (dom (w_heap w))).
  split; [apply constructor_run|].
  cbn [w_socket w_heap w_emitted this_buffer this_closed
       set_closed set_buffer set_heap set_socket].
  split; [by destruct key|]. split; [reflexivity|]. split; [reflexivity|].
  split; [reflexivity|].
  split; [apply fresh_lookup|]. split; [apply lookup_insert_eq|].
  intros l Hl. by rewrite lookup_insert_ne.
Qed.

(** X13: the bytes the constructor sends are, one byte per character, the
    characters of the response, 167 of them whatever the key: the status
    line "HTTP/1.1 101 Web Socket Protocol Handshake " with its CR LF
    first, the accept value and a line feed near the end, CR LF CR LF
    last. *)
Theorem constructor_response_bytes junk key w :
  ∃ middle,
    w_socket (constructor junk key w).2
    = w_socket w
      ++ str "HTTP/1.1 101 Web Socket Protocol Handshake " ++ [CR; LF]
      ++ middle
      ++ hashWebSocketKey (ToString key) ++ [LF]
      ++ str "      " ++ [CR; LF; CR; LF]
    ∧ length (w_socket (constructor junk key w).2)
      = (length (w_socket w) + 167)%nat.
Proof.
  rewrite constructor_run.
  cbn [snd w_socket set_closed set_buffer set_heap set_socket].
  rewrite (handshake_response_ascii _ (hashWebSocketKey_ascii (ToString key))).
  pose proof (hashWebSocketKey_length (ToString key)) as Hlen.
  generalize dependent (hashWebSocketKey (ToString key)). intros accept Hlen.
  exists (str "      Upgrade: WebSocket " ++ [CR] ++ [LF] ++
          str "      Connection: Upgrade " ++ [CR] ++ [LF] ++
          str "      sec-websocket-accept: ").
  split.
  - unfold handshake_response. rewrite <- !app_assoc. reflexivity.
  - unfold handshake_response. rewrite !length_app, Hlen.
    repeat match goal with
           | |- context [length (str ?x)] =>
               let n := eval vm_compute in (length (str x)) in
               change (length (str x)) with n
           end.
    cbn [length]. lia.
Qed.

(** ** The ['close'] handler *)

Lemma on_close_any e e' w : on_close e w = on_close e' w.
Proof. reflexivity. Qed.

Lemma on_close_frame e w :
  w_socket (on_close e w).2 = w_socket w
  ∧ w_heap (on_close e w).2 = w_heap w
  ∧ this_buffer (on_close e w).2 = this_buffer w.
Proof.
  destruct (decide (this_closed w = Some true)) as [Hc|Ho].
  - by rewrite (on_close_when_closed e w Hc).
  - by rewrite (on_close_when_open e w Ho).
Qed.

Lemma deliver_snd e sigs w :
  (deliver (e :: sigs) w).2 = (deliver sigs (on_close e w).2).2
  ∧ (deliver (e :: sigs) w).1 = (deliver sigs (on_close e w).2).1.
Proof.
  cbn [deliver].
  destruct (decide (this_closed w = Some true)) as [Hc|Ho].
  - by rewrite (bind_ok _ _ _ _ _ (on_close_when_closed e w Hc)),
               (on_close_when_closed e w Hc).
  - by rewrite (bind_ok _ _ _ _ _ (on_close_when_open e w Ho)),
               (on_close_when_open e w Ho).
Qed.

(** X14: the close handler touches nothing but the closed flag and the
    event log: over any sequence of signals the bytes sent to the socket,
    the Buffers and [this.buffer] stay as they were; and it does not look
    at [had_error]: two sequences of the same length leave the same
    state. *)
Theorem close_handler_frame sigs w :
  w_socket (deliver sigs w).2 = w_socket w
  ∧ w_heap (deliver sigs w).2 = w_heap w
  ∧ this_buffer (deliver sigs w).2 = this_buffer w
  ∧ ∀ sigs', length sigs' = length sigs → deliver sigs' w = deliver sigs w.
Proof.
  revert w. induction sigs as [|e sigs IH]; intros w.
  - repeat split; [done..|]. intros [|??] Hl; [done | discriminate].
  - destruct (deliver_snd e sigs w) as [-> _].
    destruct (IH (on_close e w).2) as (H1 & H2 & H3 & H4).
    destruct (on_close_frame e w) as (F1 & F2 & F3).
    rewrite H1, H2, H3, F1, F2, F3. repeat split; [done..|].
    intros [|e' sigs'] Hl; [discriminate|].
    injection Hl as Hl.
    apply injective_projections.
    + destruct (deliver_snd e' sigs' w) as [_ ->].
      destruct (deliver_snd e sigs w) as [_ ->].
      by rewrite (on_close_any e' e), (H4 sigs' Hl).
    + destruct (deliver_snd e' sigs' w) as [-> _].
      destruct (deliver_snd e sigs w) as [-> _].
      by rewrite (on_close_any e' e), (H4 sigs' Hl).
Qed.

(** ** [send] *)

(** X15: [send] hands a string of ASCII characters to [_doSend] byte for
    byte: the payload is a new Buffer holding the character codes, the
    opcode is TEXT, and nothing else has changed. *)
Theorem send_ascii doSend w s :
  Forall (λ c, 0 <= c < 128) s →
  send doSend (VString s) w
  = doSend OP_TEXT (fresh (dom (w_heap w)))
      (set_heap (<[fresh (dom (w_heap w)) := s]> (w_heap w)) w).
Proof.
  intros Hs. rewrite send_unfold. cbv zeta.
  rewrite <- (app_nil_r s) at 1. rewrite (utf8_encode_ascii s [] Hs).
  by rewrite app_nil_r.
Qed.

Lemma send_ascii_witness :
  Forall (λ c, 0 <= c < 128) [104; 105]
  ∧ send (_doSend some_junk) (VString [104; 105]) (blank ∅)
    = _doSend some_junk OP_TEXT (fresh (dom (w_heap (blank ∅))))
        (set_heap (<[fresh (dom (w_heap (blank ∅))) := [104; 105]]>
                     (w_heap (blank ∅))) (blank ∅)).
Proof.
  assert (Forall (λ c, 0 <= c < 128) [104; 105]) as H by (repeat constructor; lia).
  split; [exact H|].
  exact (send_ascii (_doSend some_junk) (blank ∅) [104; 105] H).
Defined.

Lemma utf8_cp_length cp :
  0 <= cp →
  (cp < 65536 → (1 ≤ length (utf8_cp cp) ≤ 3)%nat)
  ∧ (65536 <= cp → length (utf8_cp cp) = 4%nat).
Proof.
  intros H0. unfold utf8_cp.
  destruct (Z.ltb_spec cp 128), (Z.ltb_spec cp 2048), (Z.ltb_spec cp 65536);
    cbn [length]; split; intros; lia.
Qed.

Lemma utf8_encode_length n : ∀ s,
  (length s ≤ n)%nat → Forall (λ c, 0 <= c < 65536) s →
  (length s ≤ length (utf8_encode s) ≤ 3 * length s)%nat.
Proof.
  induction n as [|n IH]; intros s Hn Hs.
  - destruct s; cbn in *; lia.
  - destruct s as [|c rest]; [cbn; lia|].
    apply Forall_cons in Hs as [Hc Hrest].
    assert (length (utf8_cp 65533) = 3%nat) as H3 by reflexivity.
    pose proof (IH rest ltac:(cbn in Hn; lia) Hrest) as IHrest.
    destruct (utf8_cp_length c ltac:(lia)) as [Hcp _]. specialize (Hcp ltac:(lia)).
    cbn [utf8_encode].
    destruct (is_high_surrogate c) eqn:Eh.
    + destruct rest as [|d rest'].
      * rewrite H3. cbn. lia.
      * apply Forall_cons in Hrest as [Hd Hrest'].
        destruct (is_low_surrogate d) eqn:El.
        -- pose proof (IH rest' ltac:(cbn in Hn; lia) Hrest') as IH'.
           unfold is_high_surrogate, is_low_surrogate in Eh, El.
           apply andb_true_iff in Eh as [Eh1 Eh2].
           apply andb_true_iff in El as [El1 El2].
           apply Z.leb_le in Eh1, El1. apply Z.ltb_lt in Eh2, El2.
           assert (0 <= Z.shiftl (c - 55296) 10) as Hsh
             by (apply Z.shiftl_nonneg; lia).
           destruct (utf8_cp_length (65536 + Z.shiftl (c - 55296) 10 + (d - 56320))
                       ltac:(lia)) as [_ H4].
           rewrite length_app, H4 by lia. cbn [length]. lia.
        -- rewrite length_app, H3. cbn [length] in *. lia.
    + destruct (is_low_surrogate c).
      * rewrite length_app, H3. cbn [length]. lia.
      * rewrite length_app. cbn [length]. lia.
Qed.

(** X16: for a string, the payload [send] hands to [_doSend] is a new
    Buffer with at least as many bytes as the string has code units and
    at most three times as many. *)
Theorem send_string_length doSend w s :
  Forall (λ c, 0 <= c < 65536) s →
  ∃ payload bs w',
    send doSend (VString s) w = doSend OP_TEXT payload w'
    ∧ w_heap w !! payload = None
    ∧ w_heap w' !! payload = Some bs
    ∧ (length s ≤ length bs ≤ 3 * length s)%nat.
Proof.
  intros Hs. eexists _, _, _. split; [by rewrite send_unfold|].
  split; [apply fresh_lookup|]. split; [apply lookup_insert_eq|].
  by apply (utf8_encode_length (length s)).
Qed.

Lemma send_string_length_witness :
  Forall (λ c, 0 <= c < 65536) sample_text
  ∧ ∃ payload bs w',
      send (_doSend some_junk) (VString sample_text) (blank ∅)
      = _doSend some_junk OP_TEXT payload w'
      ∧ w_heap (blank ∅) !! payload = None
      ∧ w_heap w' !! payload = Some bs
      ∧ (length sample_text ≤ length bs ≤ 3 * length sample_text)%nat.
Proof.
  assert (Forall (λ c, 0 <= c < 65536) sample_text) as H
    by (unfold sample_text; repeat constructor; lia).
  split; [exact H|].
  exact (send_string_length (_doSend some_junk) (blank ∅) sample_text H).
Defined.

(** ** The ['data'] handler *)

Lemma Buffer_concat_ok (h : heap) a b xs ys :
  h !! a = Some xs → h !! b = Some ys →
  Buffer_concat (Some a) b h = (Ok (fresh (dom h)), <[fresh (dom h) := xs ++ ys]> h).
Proof. intros Ea Eb. unfold Buffer_concat. by rewrite Ea, Eb. Qed.

Lemma on_data_idle fuel p buf w old xs ys :
  (∀ w, p w = (Ok false, w)) →
  this_buffer w = Some old → w_heap w !! old = Some xs → w_heap w !! buf = Some ys →
  on_data (S fuel) p buf w =
    (Ok tt,
     set_buffer (Some (fresh (dom (w_heap w))))
       (set_heap (<[fresh (dom (w_heap w)) := xs ++ ys]> (w_heap w)) w)).
Proof.
  intros Hp Hb Eo Eb. unfold on_data.
  erewrite bind_ok; [| reflexivity]. rewrite Hb.
  erewrite bind_ok.
  2:{ unfold lift. by rewrite (Buffer_concat_ok _ _ _ _ _ Eo Eb). }
  erewrite bind_ok; [| reflexivity].
  cbn [while_loop]. by rewrite (bind_ok _ _ _ _ _ (Hp _)).
Qed.

Lemma feed_idle fuel p :
  (∀ w, p w = (Ok false, w)) →
  ∀ chunks yss w old xs,
    this_buffer w = Some old → w_heap w !! old = Some xs →
    Forall2 (λ c ys, w_heap w !! c = Some ys) chunks yss →
    ∃ w' buffer,
      feed (S fuel) p chunks w = (Ok tt, w')
      ∧ this_buffer w' = Some buffer
      ∧ w_heap w' !! buffer = Some (xs ++ concat yss)
      ∧ (∀ l bs, w_heap w !! l = Some bs → w_heap w' !! l = Some bs)
      ∧ w_socket w' = w_socket w
      ∧ w_emitted w' = w_emitted w
      ∧ this_closed w' = this_closed w.
Proof.
  intros Hp. induction chunks as [|c chunks IH]; intros yss w old xs Hb Eo HF.
  - apply Forall2_nil_inv_l in HF as ->.
    exists w, old. cbn [feed concat]. rewrite app_nil_r. by repeat split.
  - apply Forall2_cons_inv_l in HF as (ys & yss' & Hc & HF & ->).
    set (l := fresh (dom (w_heap w))).
    set (w1 := set_buffer (Some l) (set_heap (<[l := xs ++ ys]> (w_heap w)) w)).
    assert (∀ l' bs, w_heap w !! l' = Some bs → w_heap w1 !! l' = Some bs) as Hkeep.
    { intros l' bs Hl'. cbn. rewrite lookup_insert_ne; [done|].
      symmetry. by eapply fresh_ne. }
    destruct (IH yss' w1 l (xs ++ ys)) as (w' & b' & E & Hb' & Eb' & Hk' & Hs & He & Hcl).
    + done.
    + cbn. apply lookup_insert_eq.
    + eapply Forall2_impl; [exact HF|]. intros c' ys' Hc'. by apply Hkeep.
    + exists w', b'. split.
      { cbn [feed].
        by rewrite (bind_ok _ _ _ _ _ (on_data_idle fuel p c w old xs ys Hp Hb Eo Hc)). }
      split; [done|]. split; [by rewrite Eb', concat_cons, app_assoc|].
      split; [intros l' bs Hl'; by apply Hk', Hkeep|].
      by rewrite Hs, He, Hcl.
Qed.

(** X17: as long as [_processBuffer] finds nothing to process (it returns
    false and changes nothing), the data handler accumulates what the
    socket delivers: after any sequence of chunks [this.buffer] is a
    Buffer holding the bytes it held before followed by the bytes of the
    chunks in their order, however the bytes were cut into chunks; the
    chunks and every Buffer that existed are unchanged, nothing is sent
    or emitted, and the closed flag is as before. *)
Theorem data_handler_accumulates fuel p chunks yss w old xs :
  (∀ w, p w = (Ok false, w)) →
  this_buffer w = Some old → w_heap w !! old = Some xs →
  Forall2 (λ c ys, w_heap w !! c = Some ys) chunks yss →
  ∃ w' buffer,
    feed (S fuel) p chunks w = (Ok tt, w')
    ∧ this_buffer w' = Some buffer
    ∧ w_heap w' !! buffer = Some (xs ++ concat yss)
    ∧ (∀ l bs, w_heap w !! l = Some bs → w_heap w' !! l = Some bs)
    ∧ w_socket w' = w_socket w
    ∧ w_emitted w' = w_emitted w
    ∧ this_closed w' = this_closed w.
Proof. intros Hp Hb Eo HF. by eapply feed_idle. Qed.

Lemma data_handler_accumulates_witness :
  (∀ w, nothing_to_process w = (Ok false, w))
  ∧ this_buffer receiving_world = Some 1%positive
  ∧ w_heap receiving_world !! 1%positive = Some [55; 250; 33; 61]
  ∧ Forall2 (λ c ys, w_heap receiving_world !! c = Some ys)
      [2%positive; 3%positive] [[127; 159; 77; 81; 88]; [1; 2; 3; 4]]
  ∧ ∃ w' buffer,
      feed 1 nothing_to_process [2%positive; 3%positive] receiving_world = (Ok tt, w')
      ∧ this_buffer w' = Some buffer
      ∧ w_heap w' !! buffer
        = Some ([55; 250; 33; 61] ++ concat [[127; 159; 77; 81; 88]; [1; 2; 3; 4]])
      ∧ (∀ l bs, w_heap receiving_world !! l = Some bs → w_heap w' !! l = Some bs)
      ∧ w_socket w' = w_socket receiving_world
      ∧ w_emitted w' = w_emitted receiving_world
      ∧ this_closed w' = this_closed receiving_world.
Proof.
  assert (∀ w, nothing_to_process w = (Ok false, w)) as H1 by reflexivity.
  assert (this_buffer receiving_world = Some 1%positive) as H2 by reflexivity.
  assert (w_heap receiving_world !! 1%positive = Some [55; 250; 33; 61]) as H3
    by reflexivity.
  assert (Forall2 (λ c ys, w_heap receiving_world !! c = Some ys)
            [2%positive; 3%positive] [[127; 159; 77; 81; 88]; [1; 2; 3; 4]]) as H4
    by (repeat constructor).
  split; [exact H1|]. split; [exact H2|]. split; [exact H3|]. split; [exact H4|].
  exact (data_handler_accumulates 0 nothing_to_process _ _ receiving_world
           1%positive [55; 250; 33; 61] H1 H2 H3 H4).
Defined.
